(** * Road-network graph database: loader and dashboard metrics

    A shallow embedding of the two scripts of the repository,

    - [scripts/parse_data.py]: reads the edge-list text file and exports the
      node table ([intersections.csv]) and the edge table ([roads.csv]);
    - [scripts/dashboard.py]: runs four Cypher queries against the graph
      store and derives the summary statistics of the dashboard,

    together with the properties of the specification that they decide.

    Python integers are [Z]; Python floats are the binary64 numbers of
    [PrimFloat]; text is a list of characters with code points below 256;
    an exception is the [Raise] branch of [result]. *)

From Stdlib Require Import ZArith List Bool Ascii String Lia Permutation Sorted.
From Stdlib Require Import Floats.PrimFloat Floats.SpecFloat Floats.FloatOps.
Import ListNotations.

Set Implicit Arguments.
Set Warnings "-inexact-float".
Local Open Scope Z_scope.

(* ================================================================== *)
(** ** Python values: exceptions, indexing, text, numbers *)
(* ================================================================== *)

(** The exceptions the two scripts can raise. *)
Inductive exn : Type :=
| IndexError
| ValueError
| KeyError
| OverflowError
| ZeroDivisionError.

Inductive result (A : Type) : Type :=
| Ok (a : A)
| Raise (e : exn).

Arguments Ok {A} a.
Arguments Raise {A} e.

Definition bind {A B : Type} (m : result A) (k : A -> result B) : result B :=
  match m with
  | Ok a => k a
  | Raise e => Raise e
  end.

Definition is_ok {A : Type} (m : result A) : bool :=
  match m with Ok _ => true | Raise _ => false end.

Notation "x <- m ;; k" := (bind m (fun x => k))
  (at level 61, m at next level, right associativity).
Notation "' p <- m ;; k" := (bind m (fun x => let 'p := x in k))
  (at level 61, p pattern, m at next level, right associativity).

Module Py.

(** [l[i]]: a negative index counts from the end; out of range raises. *)
Definition index {A : Type} (l : list A) (i : Z) : result A :=
  let n := Z.of_nat (List.length l) in
  let j := if i <? 0 then i + n else i in
  if (j <? 0) || (n <=? j) then Raise IndexError
  else match nth_error l (Z.to_nat j) with
       | Some a => Ok a
       | None => Raise IndexError
       end.

(** [range(a, b)]. *)
Definition range (a b : Z) : list Z :=
  map (fun k => a + Z.of_nat k) (seq 0 (Z.to_nat (b - a))).

(** *** Text *)

Definition text := list ascii.

Definition LF : ascii := ascii_of_nat 10.
Definition CR : ascii := ascii_of_nat 13.

(** [str.isspace] on code points below 256. *)
Definition is_space (c : ascii) : bool :=
  let n := nat_of_ascii c in
  ((9 <=? n) && (n <=? 13) || (28 <=? n) && (n <=? 32)
   || (n =? 133) || (n =? 160))%nat.

(** Text mode with universal newlines: "\r\n" and "\r" are read as "\n". *)
Fixpoint universal_newlines (s : text) : text :=
  match s with
  | [] => []
  | c :: t =>
      if Ascii.eqb c CR then
        match t with
        | c' :: t' =>
            if Ascii.eqb c' LF then LF :: universal_newlines t'
            else LF :: universal_newlines t
        | [] => [LF]
        end
      else c :: universal_newlines t
  end.

(** [f.readlines()]: every line keeps its terminator; a last line without
    terminator is kept when it is not empty. [cur] is the line being read,
    reversed. *)
Fixpoint split_lines (cur : text) (s : text) : list text :=
  match s with
  | [] => match cur with [] => [] | _ => [rev cur] end
  | c :: t =>
      if Ascii.eqb c LF then rev (c :: cur) :: split_lines [] t
      else split_lines (c :: cur) t
  end.

Definition readlines (content : text) : list text :=
  split_lines [] (universal_newlines content).

Fixpoint lstrip (s : text) : text :=
  match s with
  | c :: t => if is_space c then lstrip t else s
  | [] => []
  end.

(** [s.strip()]. *)
Definition strip (s : text) : text := rev (lstrip (rev (lstrip s))).

(** [s.split()]: the maximal runs of non-space characters. [cur] is the
    field being read, reversed. *)
Fixpoint split_fields (cur : text) (s : text) : list text :=
  match s with
  | [] => match cur with [] => [] | _ => [rev cur] end
  | c :: t =>
      if is_space c then
        match cur with
        | [] => split_fields [] t
        | _ => rev cur :: split_fields [] t
        end
      else split_fields (c :: cur) t
  end.

Definition split (s : text) : list text := split_fields [] s.

(** *** [int(s)] *)

Definition digit_val (c : ascii) : option Z :=
  let n := nat_of_ascii c in
  if ((48 <=? n) && (n <=? 57))%nat then Some (Z.of_nat n - 48) else None.

Definition is_digit (c : ascii) : bool :=
  match digit_val c with Some _ => true | None => false end.

Definition underscore : ascii := ascii_of_nat 95.
Definition plus_sign : ascii := ascii_of_nat 43.
Definition minus_sign : ascii := ascii_of_nat 45.

(** Digits, with single underscores allowed between two digits. Returns the
    value and the number of digits read. *)
Fixpoint int_digits (s : text) (acc : Z) (n : nat) : option (Z * nat) :=
  match s with
  | [] => Some (acc, n)
  | c :: t =>
      match digit_val c with
      | Some d => int_digits t (acc * 10 + d) (S n)
      | None =>
          if Ascii.eqb c underscore then
            match t with
            | c' :: _ => if is_digit c' then int_digits t acc n else None
            | [] => None
            end
          else None
      end
  end.

(** The interpreter's default limit on the number of digits of a decimal
    string given to [int] (CPython 3.11 and later). *)
Definition int_max_str_digits : nat := 4300.

Definition int_unsigned (s : text) : result Z :=
  match s with
  | c :: _ =>
      if is_digit c then
        match int_digits s 0 0 with
        | Some (v, n) =>
            if (int_max_str_digits <? n)%nat then Raise ValueError else Ok v
        | None => Raise ValueError
        end
      else Raise ValueError
  | [] => Raise ValueError
  end.

(** [int(s)] for a string without surrounding white space (the fields of
    [split] have none): an optional sign, then the digits. *)
Definition int (s : text) : result Z :=
  match s with
  | c :: t =>
      if Ascii.eqb c minus_sign then bind (int_unsigned t) (fun v => Ok (- v))
      else if Ascii.eqb c plus_sign then int_unsigned t
      else int_unsigned s
  | [] => Raise ValueError
  end.

(** *** Floats *)

(** Round half to even of the quotient [n / d], for [0 <= n] and [0 < d]. *)
Definition rne_div (n d : Z) : Z :=
  let q := n / d in
  let r := n mod d in
  if 2 * r <? d then q
  else if d <? 2 * r then q + 1
  else if Z.even q then q else q + 1.

(** The binary64 number nearest to the rational [a / b] (ties to even), for
    [b <> 0]. The quotient is taken with at least 64 significant bits and a
    sticky bit, and rounded once. *)
Definition nearest_ratio (a b : Z) : float :=
  if a =? 0 then zero
  else
    let n := Z.abs a in
    let d := Z.abs b in
    let s := Z.max 0 (64 + Z.log2 d - Z.log2 n) in
    let num := n * 2 ^ s in
    let m := 2 * (num / d) + (if num mod d =? 0 then 0 else 1) in
    let f := SF2Prim (binary_normalize 53 1024 m (- s - 1) false) in
    if Z.sgn a * Z.sgn b <? 0 then PrimFloat.opp f else f.

(** The least magnitude that rounds beyond the largest finite binary64. *)
Definition float_overflow_bound : Z := 2 ^ 1024 - 2 ^ 970.

(** [float(n)] for an int [n], as [math.sqrt] converts its argument. *)
Definition float_of_int (n : Z) : result float :=
  if float_overflow_bound <=? Z.abs n then Raise OverflowError
  else Ok (nearest_ratio n 1).

(** [a / b] on ints: true division, correctly rounded. *)
Definition truediv (a b : Z) : result float :=
  if b =? 0 then Raise ZeroDivisionError
  else if float_overflow_bound * Z.abs b <=? Z.abs a then Raise OverflowError
  else Ok (nearest_ratio a b).

(** [math.sqrt(n)] for an int [n] that is not negative. *)
Definition math_sqrt (n : Z) : result float :=
  bind (float_of_int n) (fun x => Ok (PrimFloat.sqrt x)).

(** [round(x, ndigits)] for [0 <= ndigits]: the exact value of [x] is
    rounded half to even to [ndigits] decimals, and the decimal result is
    converted back to the nearest float. *)
Definition round (x : float) (ndigits : Z) : float :=
  match Prim2SF x with
  | S754_finite sg m e =>
      let p := 10 ^ ndigits in
      let num := p * Zpos m in
      let k := if 0 <=? e then num * 2 ^ e else rne_div num (2 ^ (- e)) in
      let r := nearest_ratio k p in
      if sg then PrimFloat.opp r else r
  | _ => x
  end.

End Py.

Definition text_of (s : string) : Py.text := list_ascii_of_string s.

(* ================================================================== *)
(** ** [scripts/parse_data.py] *)
(* ================================================================== *)

Module ParseData.

(** *** The [vertices] dict

    A Python dict keeps its keys in insertion order, and assigning to a key
    that is present replaces the value where the key stands. *)

Definition coords : Type := (Z * Z)%type.
Definition dict : Type := list (Z * coords).

Fixpoint dict_set (d : dict) (k : Z) (v : coords) : dict :=
  match d with
  | [] => [(k, v)]
  | (k', v') :: t =>
      if k' =? k then (k', v) :: t else (k', v') :: dict_set t k v
  end.

Fixpoint dict_find (d : dict) (k : Z) : option coords :=
  match d with
  | [] => None
  | (k', v) :: t => if k' =? k then Some v else dict_find t k
  end.

(** [d[k]] *)
Definition dict_get (d : dict) (k : Z) : result coords :=
  match dict_find d k with
  | Some v => Ok v
  | None => Raise KeyError
  end.

(** *** The exported tables *)

(** A row of [intersections.csv], under the header [id, x, y]. *)
Record NodeRow : Type := { id : Z; x : Z; y : Z }.

(** A row of [roads.csv], under the header [source, target, distance]. *)
Record RoadRow : Type := { source : Z; target : Z; distance : float }.

Definition intersections_header : list string := ["id"; "x"; "y"]%string.
Definition roads_header : list string :=
  ["source"; "target"; "distance"]%string.

(** What a run leaves behind: the rows written to each of the two files
    ([None] when the file was never opened for writing), and how the run
    ended. *)
Record Run : Type := {
  intersections_csv : option (list NodeRow);
  roads_csv : option (list RoadRow);
  outcome : result unit
}.

(** *** The loops *)

(** [for i in idx: s = body(i, s)], stopped by the first exception. *)
Fixpoint for_each {S : Type} (idx : list Z) (body : Z -> S -> result S)
  (s : S) : result S :=
  match idx with
  | [] => Ok s
  | i :: rest => s' <- body i s ;; for_each rest body s'
  end.

(** [lines[i].strip().split()] *)
Definition fields (line : Py.text) : list Py.text :=
  Py.split (Py.strip line).

(** Lines 16-18: the header. *)
Definition parse_header (lines : list Py.text) : result (Z * Z) :=
  l0 <- Py.index lines 0 ;;
  let header := fields l0 in
  h0 <- Py.index header 0 ;;
  num_vertices <- Py.int h0 ;;
  h1 <- Py.index header 1 ;;
  num_edges <- Py.int h1 ;;
  Ok (num_vertices, num_edges).

(** Lines 28-31: one coordinate record. *)
Definition vertex_record (line : Py.text) : result (Z * coords) :=
  let parts := fields line in
  p0 <- Py.index parts 0 ;;
  vertex_id <- Py.int p0 ;;
  p1 <- Py.index parts 1 ;;
  x <- Py.int p1 ;;
  p2 <- Py.index parts 2 ;;
  y <- Py.int p2 ;;
  Ok (vertex_id, (x, y)).

(** Lines 27-32. *)
Definition parse_vertices (lines : list Py.text) (num_vertices : Z)
  : result dict :=
  for_each (Py.range 1 (num_vertices + 1))
    (fun i vertices =>
       line <- Py.index lines i ;;
       '(vertex_id, xy) <- vertex_record line ;;
       Ok (dict_set vertices vertex_id xy))
    [].

(** Lines 39-43: one line of the edge section; a line with fewer than two
    fields adds nothing. *)
Definition edge_record (line : Py.text) : result (option (Z * Z)) :=
  let parts := fields line in
  if 2 <=? Z.of_nat (List.length parts) then
    p0 <- Py.index parts 0 ;;
    source <- Py.int p0 ;;
    p1 <- Py.index parts 1 ;;
    target <- Py.int p1 ;;
    Ok (Some (source, target))
  else Ok None.

(** Lines 35-43. *)
Definition parse_edges (lines : list Py.text) (num_vertices : Z)
  : result (list (Z * Z)) :=
  for_each (Py.range (num_vertices + 1) (Z.of_nat (List.length lines)))
    (fun i edges =>
       line <- Py.index lines i ;;
       e <- edge_record line ;;
       Ok (match e with Some st => edges ++ [st] | None => edges end))
    [].

(** Lines 54-55: [vertices.items()] in insertion order. *)
Definition node_rows (vertices : dict) : list NodeRow :=
  map (fun kv => {| id := fst kv; x := fst (snd kv); y := snd (snd kv) |})
    vertices.

(** Lines 64-68: the row of one edge. *)
Definition road_row (vertices : dict) (e : Z * Z) : result RoadRow :=
  let '(source, target) := e in
  '(x1, y1) <- dict_get vertices source ;;
  '(x2, y2) <- dict_get vertices target ;;
  d <- Py.math_sqrt ((x2 - x1) ^ 2 + (y2 - y1) ^ 2) ;;
  Ok {| source := source; target := target; distance := Py.round d 2 |}.

(** Lines 63-68: rows are written one by one; an exception leaves the rows
    written before it in the file. *)
Fixpoint write_roads (vertices : dict) (edges : list (Z * Z))
  (written : list RoadRow) : list RoadRow * result unit :=
  match edges with
  | [] => (written, Ok tt)
  | e :: rest =>
      match road_row vertices e with
      | Ok r => write_roads vertices rest (written ++ [r])
      | Raise ex => (written, Raise ex)
      end
  end.

(** Lines 12-43: everything before the first file is opened for writing. *)
Definition parse_phase (content : Py.text) : result (dict * list (Z * Z)) :=
  let lines := Py.readlines content in
  '(num_vertices, num_edges) <- parse_header lines ;;
  vertices <- parse_vertices lines num_vertices ;;
  edges <- parse_edges lines num_vertices ;;
  Ok (vertices, edges).

(** [parse_data()], on the content of the input file. *)
Definition parse_data (content : Py.text) : Run :=
  match parse_phase content with
  | Raise ex =>
      {| intersections_csv := None; roads_csv := None; outcome := Raise ex |}
  | Ok (vertices, edges) =>
      let '(rows, st) := write_roads vertices edges [] in
      {| intersections_csv := Some (node_rows vertices);
         roads_csv := Some rows;
         outcome := st |}
  end.

End ParseData.

(** Joins lines with "\n", as the scenarios of the specification write an
    input file. *)
Definition file_of (lines : list string) : Py.text :=
  text_of (String.concat (String Py.LF EmptyString) lines).

Definition scenario_A : Py.text :=
  file_of ["3 2"; "1 0 0"; "2 3 0"; "3 3 4"; "1 2"; "2 3"]%string.

(* ================================================================== *)
(** ** The graph store *)
(* ================================================================== *)

Module Store.

(** The [Intersection] nodes, each named by its [id] property and listed in
    the order the store scans them, and the [ROAD] relationships, each
    stored from its source to its target. *)
Record Graph : Type := {
  nodes : list Z;
  rels : list (Z * Z)
}.

(** Modelled from the spec: the import of the two exported tables into the
    graph store, which is not part of the two scripts. The store is "a
    queryable persistent graph of nodes and undirected edges, addressable
    by node id", filled from the tables: one node per row of the node
    table, one relationship per row of the edge table. *)
Definition import (node_table : list ParseData.NodeRow)
  (edge_table : list ParseData.RoadRow) : Graph :=
  {| nodes := map ParseData.id node_table;
     rels := map (fun r => (ParseData.source r, ParseData.target r))
               edge_table |}.

Definition mem (i : Z) (l : list Z) : bool := existsb (Z.eqb i) l.

Fixpoint distinct (l : list Z) : bool :=
  match l with
  | [] => true
  | i :: t => negb (mem i t) && distinct t
  end.

(** A loaded graph: node ids are unique and every relationship joins two
    nodes of the graph. Every graph that [load] returns is one
    ([load_loaded]). *)
Definition loaded (g : Graph) : bool :=
  distinct (nodes g)
  && forallb (fun r => mem (fst r) (nodes g) && mem (snd r) (nodes g))
       (rels g).

Definition rows_of {R : Type} (file : option (list R)) : list R :=
  match file with Some rows => rows | None => [] end.

(** The graph a run of the loader hands to the store: none when the run
    ended with an exception. *)
Definition load (content : Py.text) : result Graph :=
  let run := ParseData.parse_data content in
  _ <- ParseData.outcome run ;;
  Ok (import (rows_of (ParseData.intersections_csv run))
        (rows_of (ParseData.roads_csv run))).

End Store.

(* ================================================================== *)
(** ** [scripts/dashboard.py]: the queries *)
(* ================================================================== *)

Module Cypher.

Import Store.

(** The pattern [(i)-[:ROAD]-()] has no arrow: it matches a relationship
    that starts or ends at [i], whatever its stored direction. A match is a
    binding of the relationship, so a relationship from [i] to [i] is
    matched once from [i], as the store counts a loop once in the degree of
    its node. *)
Definition incident (i : Z) (r : Z * Z) : bool :=
  (fst r =? i) || (snd r =? i).

(** [COUNT { (i)-[:ROAD]-() }] *)
Definition degree (g : Graph) (i : Z) : nat :=
  List.length (filter (incident i) (rels g)).

(** [MATCH (i:Intersection) WITH i, COUNT { (i)-[:ROAD]-() } AS degree]:
    one row per node, in scan order. *)
Definition with_degree (g : Graph) : list (Z * nat) :=
  map (fun i => (i, degree g i)) (nodes g).

Section Clauses.

Variable A : Type.

(** [RETURN key, count( * )]: one row per distinct key with the number of
    rows that carry it; groups stand in the order their key is first
    seen. *)
Variable eqb : A -> A -> bool.

Fixpoint bump (k : A) (acc : list (A * nat)) : list (A * nat) :=
  match acc with
  | [] => [(k, 1%nat)]
  | (k', c) :: t => if eqb k' k then (k', S c) :: t else (k', c) :: bump k t
  end.

Definition group_count (keys : list A) : list (A * nat) :=
  fold_left (fun acc k => bump k acc) keys [].

(** [ORDER BY]: rows are put in the order [leb]; rows that [leb] does not
    tell apart keep the order they came in. *)
Variable leb : A -> A -> bool.

Fixpoint insert (a : A) (l : list A) : list A :=
  match l with
  | [] => [a]
  | b :: t => if leb a b then a :: b :: t else b :: insert a t
  end.

Definition order_by (l : list A) : list A := fold_right insert [] l.

(** What the clause promises of its output, whatever the engine does with
    rows of equal rank: the same rows, in order. *)
Definition ordered_answer (input output : list A) : Prop :=
  Permutation input output /\ Sorted (fun a b => leb a b = true) output.

End Clauses.

(** [MATCH (i:Intersection) RETURN count(i)] *)
Definition count_intersections (g : Graph) : nat := List.length (nodes g).

(** [MATCH ()-[r:ROAD]->() RETURN count(r)] *)
Definition count_roads (g : Graph) : nat := List.length (rels g).

(** [degree_query]: [RETURN degree, count( * ) AS count ORDER BY degree]. *)
Definition by_degree_asc (a b : nat * nat) : bool := (fst a <=? fst b)%nat.

Definition degree_groups (g : Graph) : list (nat * nat) :=
  group_count Nat.eqb (map snd (with_degree g)).

Definition degree_query (g : Graph) : list (nat * nat) :=
  order_by by_degree_asc (degree_groups g).

(** [top10_query]:
    [RETURN i.id AS intersection_id, degree ORDER BY degree DESC LIMIT 10]. *)
Definition by_degree_desc (a b : Z * nat) : bool := (snd b <=? snd a)%nat.

Definition limit (A : Type) (n : nat) (rows : list A) : list A :=
  firstn n rows.

Definition top10_query (g : Graph) : list (Z * nat) :=
  limit 10 (order_by by_degree_desc (with_degree g)).

(** Every result the text of [top10_query] allows. *)
Definition top10_answer (g : Graph) (out : list (Z * nat)) : Prop :=
  exists sorted,
    ordered_answer by_degree_desc (with_degree g) sorted
    /\ out = limit 10 sorted.

(** [categories_query]: the [CASE] on the degree, counted by label and
    ordered by [count DESC]. *)
Definition category (degree : nat) : string :=
  match degree with
  | 1%nat => "Dead End (1 road)"
  | 2%nat => "Pass Through (2 roads)"
  | 3%nat => "T-Junction (3 roads)"
  | 4%nat => "Crossroad (4 roads)"
  | _ => "Major Hub (5+ roads)"
  end.

Definition by_count_desc (a b : string * nat) : bool := (snd b <=? snd a)%nat.

Definition category_groups (g : Graph) : list (string * nat) :=
  group_count String.eqb (map (fun r => category (snd r)) (with_degree g)).

Definition categories_query (g : Graph) : list (string * nat) :=
  order_by by_count_desc (category_groups g).

End Cypher.

(* ================================================================== *)
(** ** [scripts/dashboard.py]: the summary statistics *)
(* ================================================================== *)

Module Dashboard.

Import Store Cypher.

(** [df[name]] on the frame built from the rows of a query: a frame built
    from no row has no column. *)
Definition column {R V : Type} (df : list R) (field : R -> V)
  : result (list V) :=
  match df with
  | [] => Raise KeyError
  | _ => Ok (map field df)
  end.

(** [Series.max()] on a column that is not empty. *)
Definition series_max (l : list nat) : nat := fold_right Nat.max 0%nat l.

(** [Series.idxmax()]: the first position that holds the maximum. *)
Fixpoint idxmax_from (l : list nat) (m : nat) (pos : nat) : nat :=
  match l with
  | [] => pos
  | c :: t => if (c =? m)%nat then pos else idxmax_from t m (S pos)
  end.

Definition idxmax (l : list nat) : nat := idxmax_from l (series_max l) 0.

(** The float of a count. *)
Definition float_of_count (n : nat) : float :=
  Py.nearest_ratio (Z.of_nat n) 1.

(** [rint]: the nearest integral float, ties to even. *)
Definition rint (v : float) : float :=
  match Prim2SF v with
  | S754_finite sg m e =>
      if 0 <=? e then v
      else
        let r := Py.nearest_ratio (Py.rne_div (Zpos m) (2 ^ (- e))) 1 in
        if sg then PrimFloat.opp r else r
  | _ => v
  end.

(** [round(v, 1)] on the float64 scalar that the column arithmetic yields:
    scale by ten, round to an integer, scale back. *)
Definition np_round1 (v : float) : float :=
  PrimFloat.div (rint (PrimFloat.mul v 10)) 10.

Record Summary : Type := {
  total_intersections : Z;
  total_roads : Z;
  avg_degree : float;
  degree_df : list (nat * nat);
  top10_df : list (Z * nat);
  categories_df : list (string * nat);
  most_common_type : string;
  most_common_pct : float;
  max_degree : nat
}.

(** The script from the first query to the insights table, in the order of
    its statements. *)
Definition dashboard (g : Graph) : result Summary :=
  let total_intersections := Z.of_nat (count_intersections g) in
  let total_roads := Z.of_nat (count_roads g) in
  q <- Py.truediv (2 * total_roads) total_intersections ;;
  let avg_degree := Py.round q 2 in
  let degree_df := degree_query g in
  let top10_df := top10_query g in
  let categories_df := categories_query g in
  counts <- column categories_df snd ;;
  labels <- column categories_df fst ;;
  let most_common_type := nth (idxmax counts) labels EmptyString in
  counts' <- column categories_df snd ;;
  let most_common_pct :=
    np_round1
      (PrimFloat.mul
         (PrimFloat.div (float_of_count (series_max counts'))
            (Py.nearest_ratio total_intersections 1))
         100) in
  degrees <- column degree_df fst ;;
  Ok {| total_intersections := total_intersections;
        total_roads := total_roads;
        avg_degree := avg_degree;
        degree_df := degree_df;
        top10_df := top10_df;
        categories_df := categories_df;
        most_common_type := most_common_type;
        most_common_pct := most_common_pct;
        max_degree := series_max degrees |}.

(** The whole pipeline: load the file, import the tables, run the
    dashboard. *)
Definition pipeline (content : Py.text) : result Summary :=
  g <- Store.load content ;;
  dashboard g.

End Dashboard.

(* ================================================================== *)
(** ** Vocabulary of the properties *)
(* ================================================================== *)

Module Props.

Import Store Cypher.

Section Counting.

Variable A : Type.

Definition count_if (p : A -> bool) (l : list A) : nat :=
  List.length (filter p l).

Variable eqb : A -> A -> bool.

(** The count a grouped result holds for a key. *)
Fixpoint lookup (acc : list (A * nat)) (k : A) : nat :=
  match acc with
  | [] => 0%nat
  | (k', c) :: t => if eqb k' k then c else lookup t k
  end.

Definition occurrences (keys : list A) (k : A) : nat :=
  count_if (fun a => eqb a k) keys.

Definition positive (acc : list (A * nat)) : Prop :=
  Forall (fun kc => (0 < snd kc)%nat) acc.

End Counting.

(** [sum(allDegrees().values())] *)
Definition degree_sum (g : Graph) : nat := list_sum (map snd (with_degree g)).

Definition self_loop (r : Z * Z) : bool := fst r =? snd r.

Definition self_loops (g : Graph) : nat := count_if self_loop (rels g).

(** The same graph with every road stored the other way round. *)
Definition reversed (g : Graph) : Graph :=
  {| nodes := nodes g; rels := map (fun r => (snd r, fst r)) (rels g) |}.

(** The order the specification asks of the Top-K view: greater degree
    first, and among equal degrees the smaller node id first. *)
Definition ranked_before (a b : Z * nat) : Prop :=
  (snd b < snd a)%nat \/ (snd a = snd b /\ fst a < fst b).



End Props.

(** *** The input file seen as three sections *)

Module Format.

Import ParseData.


(** The [n] lines after the header, and the lines after those. *)
Definition coordinate_lines (lines : list Py.text) (n : Z) : list Py.text :=
  firstn (Z.to_nat n) (skipn 1 lines).

Definition edge_lines (lines : list Py.text) (n : Z) : list Py.text :=
  skipn (Z.to_nat (n + 1)) lines.

(** The records of a section, when every line of it parses. *)
Fixpoint collect {R : Type} (parse : Py.text -> result R)
  (ls : list Py.text) : result (list R) :=
  match ls with
  | [] => Ok []
  | l :: rest => r <- parse l ;; rs <- collect parse rest ;; Ok (r :: rs)
  end.

(** The step of a loop over line numbers: read the line, parse it, update
    the state. *)
Definition body {S R : Type} (lines : list Py.text)
  (parse : Py.text -> result R) (upd : S -> R -> S) (i : Z) (s : S)
  : result S :=
  line <- Py.index lines i ;; r <- parse line ;; Ok (upd s r).

Definition set_record (d : dict) (r : Z * coords) : dict :=
  dict_set d (fst r) (snd r).

Definition add_edge (edges : list (Z * Z)) (e : option (Z * Z))
  : list (Z * Z) :=
  match e with Some st => edges ++ [st] | None => edges end.

(** The dict the coordinate records build, one assignment each. *)
Definition vertices_of (recs : list (Z * coords)) : dict :=
  fold_left set_record recs [].

(** The pairs the edge lines add, in order. *)
Definition edges_of (es : list (option (Z * Z))) : list (Z * Z) :=
  fold_left add_edge es [].

Definition flatten (es : list (option (Z * Z))) : list (Z * Z) :=
  flat_map (fun e => match e with Some st => [st] | None => [] end) es.

(** The exceptions of the parsing. *)
Definition parse_exn (e : exn) : Prop := e = IndexError \/ e = ValueError.

(** The coordinates the last record of an id gives it. *)
Definition last_coords (recs : list (Z * coords)) (i : Z) : option coords :=
  dict_find (rev recs) i.

Definition two_fields (line : Py.text) : bool :=
  (2 <=? List.length (fields line))%nat.

Definition endpoints (r : RoadRow) : Z * Z := (source r, target r).

(** Coordinates small enough for every squared distance to be in the range
    of the floats. *)
Definition coordinate_bound : Z := 2 ^ 510.

Definition bounded (xy : coords) : bool :=
  (Z.abs (fst xy) <? coordinate_bound) && (Z.abs (snd xy) <? coordinate_bound).

Definition known (ids : list Z) (e : option (Z * Z)) : bool :=
  match e with
  | Some (s, t) => Store.mem s ids && Store.mem t ids
  | None => true
  end.

(** A well-formed input: a header [n m] of integers with [0 <= n]; then [n]
    coordinate records [id x y] of integers, within the bound; then lines
    of which each one with two fields or more starts with two integers
    that are ids of coordinate records. The count [m] is not looked at,
    and no id is asked to be unique. *)
Definition well_formed (content : Py.text) : bool :=
  let lines := Py.readlines content in
  match parse_header lines with
  | Ok (n, _) =>
      (0 <=? n) && (n <? Z.of_nat (List.length lines))
      && match collect vertex_record (coordinate_lines lines n) with
         | Ok recs =>
             forallb (fun r => bounded (snd r)) recs
             && match collect edge_record (edge_lines lines n) with
                | Ok es => forallb (known (map fst recs)) es
                | Raise _ => false
                end
         | Raise _ => false
         end
  | Raise _ => false
  end.


End Format.

(** *** Inputs used as examples *)

(** One node with a road from itself to itself. *)
Definition loop_file : Py.text := file_of ["1 1"; "7 0 0"; "7 7"]%string.

(** One node and no road. *)
Definition isolated_file : Py.text := file_of ["1 0"; "1 0 0"]%string.

(** Two nodes without roads, the greater id first. *)
Definition two_isolated_file : Py.text :=
  file_of ["2 0"; "2 0 0"; "1 0 0"]%string.

(** No node at all. *)
Definition empty_file : Py.text := file_of ["0 0"]%string.



(** The id 1 is given coordinates twice; the road 1-2 is listed twice and
    once more from 2 to 1. *)
Definition duplicates_file : Py.text :=
  file_of ["3 3"; "1 0 0"; "2 3 0"; "1 0 4"; "1 2"; "1 2"; "2 1"]%string.

(* ================================================================== *)
(** ** Further vocabulary *)
(* ================================================================== *)

Module More.

Import ParseData Format.

(** The ids of a list in the order each one is first met; [seen] holds the
    ids met before. *)
Fixpoint first_seen (l seen : list Z) : list Z :=
  match l with
  | [] => []
  | i :: t =>
      if Store.mem i seen then first_seen t seen
      else i :: first_seen t (seen ++ [i])
  end.

(** The row of the node table a coordinate record gives. *)
Definition row_of_record (r : Z * coords) : NodeRow :=
  {| id := fst r; x := fst (snd r); y := snd (snd r) |}.

(** The same text with every line feed written as carriage return, line
    feed. *)
Fixpoint crlf (s : Py.text) : Py.text :=
  match s with
  | [] => []
  | c :: t =>
      if Ascii.eqb c Py.LF then Py.CR :: Py.LF :: crlf t else c :: crlf t
  end.

Definition no_cr (s : Py.text) : bool :=
  forallb (fun c => negb (Ascii.eqb c Py.CR)) s.

(** The squared distance between the two ends of an edge, as line 66
    computes it before the square root. *)
Definition squared_distance (a b : coords) : Z :=
  (fst b - fst a) ^ 2 + (snd b - snd a) ^ 2.

(** Two results of reading a line that the loader cannot tell apart. *)
Definition same_fields (a b : result Py.text) : Prop :=
  match a, b with
  | Ok l, Ok l' => fields l = fields l'
  | Raise e, Raise e' => e = e'
  | _, _ => False
  end.

(** The five labels of [categories_query]. *)
Definition labels : list string :=
  ["Dead End (1 road)"; "Pass Through (2 roads)"; "T-Junction (3 roads)";
   "Crossroad (4 roads)"; "Major Hub (5+ roads)"]%string.

(** The sum of degree times count over the rows of a histogram. *)
Definition weighted_sum (rows : list (nat * nat)) : nat :=
  list_sum (map (fun r => (fst r * snd r)%nat) rows).

(** The same road, stored in either direction. *)
Definition same_road (r r' : Z * Z) : Prop :=
  r' = r \/ r' = (snd r, fst r).

End More.

(* ================================================================== *)
(** * Properties *)
(* ================================================================== *)

Unset Implicit Arguments.

(** ** The model on known values *)

Example round_half_even_1 : Py.round 0.125%float 2 = 0.12%float.
Proof. vm_compute. reflexivity. Qed.

Example round_half_even_2 : Py.round 0.375%float 2 = 0.38%float.
Proof. vm_compute. reflexivity. Qed.

Example round_binary_value : Py.round 2.675%float 2 = 2.67%float.
Proof. vm_compute. reflexivity. Qed.

Example truediv_third : Py.truediv 1 3 = Ok (PrimFloat.div 1 3).
Proof. vm_compute. reflexivity. Qed.

Example truediv_zero : Py.truediv 4 0 = Raise ZeroDivisionError.
Proof. reflexivity. Qed.

Example int_underscore : Py.int (text_of "-1_000") = Ok (-1000).
Proof. reflexivity. Qed.

Example int_bad : Py.int (text_of "1__0") = Raise ValueError.
Proof. reflexivity. Qed.

Example index_negative : Py.index [10; 20; 30] (-1) = Ok 30.
Proof. reflexivity. Qed.

Example index_out : Py.index [10; 20; 30] 3 = Raise IndexError.
Proof. reflexivity. Qed.

Example scenario_A_tables :
  ParseData.parse_data scenario_A =
  {| ParseData.intersections_csv :=
       Some [ParseData.Build_NodeRow 1 0 0;
             ParseData.Build_NodeRow 2 3 0;
             ParseData.Build_NodeRow 3 3 4];
     ParseData.roads_csv :=
       Some [ParseData.Build_RoadRow 1 2 3%float;
             ParseData.Build_RoadRow 2 3 4%float];
     ParseData.outcome := Ok tt |}.
Proof. vm_compute. reflexivity. Qed.

Example scenario_A_summary :
  Dashboard.pipeline scenario_A =
  Ok {| Dashboard.total_intersections := 3;
        Dashboard.total_roads := 2;
        Dashboard.avg_degree := 1.33%float;
        Dashboard.degree_df := [(1, 2); (2, 1)]%nat;
        Dashboard.top10_df := [(2, 2%nat); (1, 1%nat); (3, 1%nat)];
        Dashboard.categories_df :=
          [("Dead End (1 road)"%string, 2%nat);
           ("Pass Through (2 roads)"%string, 1%nat)];
        Dashboard.most_common_type := "Dead End (1 road)";
        Dashboard.most_common_pct := 66.7%float;
        Dashboard.max_degree := 2 |}.
Proof. vm_compute. reflexivity. Qed.

(** ** Counting, grouping and ordering *)

Section Metrics.

Import Store Cypher Props.

Section Counting.

Context {A B : Type}.

Lemma count_if_cons (p : A -> bool) a l :
  count_if p (a :: l) = ((if p a then 1 else 0) + count_if p l)%nat.
Proof. unfold count_if; simpl; destruct (p a); reflexivity. Qed.

Lemma count_if_none (p : A -> bool) l :
  (forall a, In a l -> p a = false) -> count_if p l = 0%nat.
Proof.
  induction l as [|a l IH]; intros H; [reflexivity|].
  rewrite count_if_cons, (H a (or_introl eq_refl)), IH; [reflexivity|].
  intros b Hb; apply H; right; exact Hb.
Qed.

Lemma count_if_or (p q : A -> bool) l :
  (count_if (fun a => p a || q a) l + count_if (fun a => p a && q a) l
   = count_if p l + count_if q l)%nat.
Proof.
  induction l as [|a l IH]; [reflexivity|].
  rewrite !count_if_cons. destruct (p a), (q a); simpl; lia.
Qed.

Lemma count_if_perm (p : A -> bool) l l' :
  Permutation l l' -> count_if p l = count_if p l'.
Proof.
  intros H. unfold count_if. apply Permutation_length.
  induction H; simpl.
  - constructor.
  - destruct (p x); [constructor|]; assumption.
  - destruct (p y), (p x);
      first [apply perm_swap | reflexivity | apply perm_skip; reflexivity].
  - etransitivity; eassumption.
Qed.

(** Counting the pairs of a relation by rows or by columns. *)
Lemma double_count (rel : A -> B -> bool) (la : list A) (lb : list B) :
  list_sum (map (fun a => List.length (filter (rel a) lb)) la)
  = list_sum (map (fun b => List.length (filter (fun a => rel a b) la)) lb).
Proof.
  induction la as [|a la IH]; simpl.
  - induction lb as [|b lb IHb]; simpl; [reflexivity | exact IHb].
  - rewrite IH. clear IH.
    induction lb as [|b lb IHb]; simpl; [reflexivity|].
    destruct (rel a b); simpl; lia.
Qed.

End Counting.

Lemma mem_In i l : mem i l = true <-> In i l.
Proof.
  unfold mem. rewrite existsb_exists. split.
  - intros [j [Hj He]]. apply Z.eqb_eq in He. subst; exact Hj.
  - intros H. exists i. split; [exact H | apply Z.eqb_refl].
Qed.

Lemma distinct_NoDup l : distinct l = true <-> NoDup l.
Proof.
  induction l as [|i l IH]; simpl.
  - split; [constructor | reflexivity].
  - rewrite andb_true_iff, negb_true_iff, IH. split.
    + intros [Hm Hd]. constructor; [|exact Hd].
      intros Hin. apply mem_In in Hin. congruence.
    + intros H. inversion H as [|? ? Hn Hd]; subst. split; [|exact Hd].
      destruct (mem i l) eqn:E; [|reflexivity].
      apply mem_In in E. contradiction.
Qed.

Lemma count_eq_NoDup i l :
  NoDup l -> In i l -> count_if (fun j => i =? j) l = 1%nat.
Proof.
  induction 1 as [|j l Hn Hd IH]; intros Hin; [destruct Hin|].
  rewrite count_if_cons. destruct Hin as [->|Hin].
  - rewrite Z.eqb_refl, count_if_none; [reflexivity|].
    intros a Ha. apply Z.eqb_neq. intros ->. contradiction.
  - destruct (Z.eqb_spec i j) as [->|_]; [contradiction|].
    rewrite IH; auto.
Qed.


Lemma ends_matched (l : list Z) (r : Z * Z) :
  NoDup l -> In (fst r) l -> In (snd r) l ->
  (count_if (fun i => incident i r) l
   + (if self_loop r then 1 else 0) = 2)%nat.
Proof.
  intros Hd Ha Hb. destruct r as [a b]; unfold incident, self_loop; simpl in *.
  pose proof (count_if_or (fun i => a =? i) (fun i => b =? i) l) as H.
  cbv beta in H.
  rewrite (count_eq_NoDup a l Hd Ha), (count_eq_NoDup b l Hd Hb) in H.
  destruct (Z.eqb_spec a b) as [->|Hab].
  - assert (E : count_if (fun i => (b =? i) && (b =? i)) l
                = count_if (fun i => (b =? i) || (b =? i)) l).
    { unfold count_if. f_equal. apply filter_ext.
      intros i. destruct (b =? i); reflexivity. }
    rewrite E in H. lia.
  - replace (count_if (fun i => (a =? i) && (b =? i)) l)
      with 0%nat in H; [lia|].
    symmetry. apply (count_if_none (fun i => (a =? i) && (b =? i))).
    intros i _. destruct (Z.eqb_spec a i), (Z.eqb_spec b i); try reflexivity.
    congruence.
Qed.


Lemma loaded_spec g :
  loaded g = true <->
  NoDup (nodes g)
  /\ Forall (fun r => In (fst r) (nodes g) /\ In (snd r) (nodes g)) (rels g).
Proof.
  unfold loaded. rewrite andb_true_iff, distinct_NoDup, forallb_forall.
  rewrite Forall_forall. split; intros [Hd Hr]; (split; [exact Hd|]);
    intros r Hin; specialize (Hr r Hin).
  - apply andb_true_iff in Hr. rewrite !mem_In in Hr. exact Hr.
  - apply andb_true_iff. rewrite !mem_In. exact Hr.
Qed.

Lemma degree_sum_by_rels g :
  degree_sum g
  = list_sum (map (fun r => count_if (fun i => incident i r) (nodes g))
               (rels g)).
Proof.
  unfold degree_sum, with_degree, degree. rewrite map_map. simpl.
  apply (double_count incident).
Qed.

Lemma handshake g :
  loaded g = true -> (degree_sum g + self_loops g = 2 * count_roads g)%nat.
Proof.
  intros H. apply loaded_spec in H. destruct H as [Hd Hr].
  rewrite degree_sum_by_rels. unfold self_loops, count_roads.
  induction Hr as [|r rs [Ha Hb] _ IH]; [reflexivity|].
  simpl. pose proof (ends_matched (nodes g) r Hd Ha Hb) as E.
  unfold count_if in *. simpl. destruct (self_loop r); simpl; lia.
Qed.

(** ** Grouping *)

Section Grouping.

Context {A : Type}.
Variable eqb : A -> A -> bool.
Hypothesis eqb_eq : forall a b, eqb a b = true <-> a = b.


Lemma eqb_refl' a : eqb a a = true.
Proof. apply eqb_eq; reflexivity. Qed.

Lemma eqb_neq' a b : a <> b -> eqb a b = false.
Proof.
  intros H. destruct (eqb a b) eqn:E; [|reflexivity].
  apply eqb_eq in E. contradiction.
Qed.

Lemma bump_keys k acc :
  forall a, In a (map fst (bump eqb k acc)) <-> a = k \/ In a (map fst acc).
Proof.
  induction acc as [|[k' c] t IH]; intros a; simpl.
  - intuition congruence.
  - destruct (eqb k' k) eqn:E; simpl.
    + apply eqb_eq in E. subst. intuition congruence.
    + rewrite IH. intuition congruence.
Qed.

Lemma bump_NoDup k acc :
  NoDup (map fst acc) -> NoDup (map fst (bump eqb k acc)).
Proof.
  induction acc as [|[k' c] t IH]; simpl; intros H.
  - constructor; [intros [] | constructor].
  - inversion H as [|? ? Hn Hd]; subst.
    destruct (eqb k' k) eqn:E; simpl.
    + constructor; assumption.
    + constructor; [|apply IH; exact Hd].
      rewrite bump_keys. intros [->|Hin]; [|contradiction].
      rewrite eqb_refl' in E. discriminate.
Qed.

Lemma bump_positive k acc : positive acc -> positive (bump eqb k acc).
Proof.
  unfold positive. induction 1 as [|[k' c] t Hc Ht IH]; simpl.
  - constructor; [simpl; lia | constructor].
  - destruct (eqb k' k); constructor; simpl in *; try lia; assumption.
Qed.

Lemma bump_lookup k acc a :
  lookup eqb (bump eqb k acc) a
  = (lookup eqb acc a + if eqb k a then 1 else 0)%nat.
Proof.
  induction acc as [|[k' c] t IH]; simpl.
  - destruct (eqb k a); reflexivity.
  - destruct (eqb k' k) eqn:E; simpl.
    + apply eqb_eq in E. subst k'. destruct (eqb k a); lia.
    + destruct (eqb k' a) eqn:E'; [|exact IH].
      apply eqb_eq in E'. subst k'.
      rewrite (eqb_neq' k a); [lia|].
      intros ->. rewrite eqb_refl' in E. discriminate.
Qed.

Lemma bump_sum k acc :
  list_sum (map snd (bump eqb k acc)) = S (list_sum (map snd acc)).
Proof.
  induction acc as [|[k' c] t IH]; simpl; [reflexivity|].
  destruct (eqb k' k); simpl; [lia | rewrite IH; lia].
Qed.

Lemma fold_bump keys : forall acc,
  NoDup (map fst acc) -> positive acc ->
  let G := fold_left (fun acc k => bump eqb k acc) keys acc in
  NoDup (map fst G) /\ positive G
  /\ (forall a, lookup eqb G a = (lookup eqb acc a + occurrences eqb keys a)%nat)
  /\ list_sum (map snd G)
     = (list_sum (map snd acc) + List.length keys)%nat.
Proof.
  induction keys as [|k keys IH]; intros acc Hd Hp; simpl.
  - repeat split; auto; intros; unfold occurrences, count_if; simpl; lia.
  - destruct (IH (bump eqb k acc) (bump_NoDup k acc Hd)
                (bump_positive k acc Hp))
      as (H1 & H2 & H3 & H4).
    repeat split; auto.
    + intros a. rewrite H3, bump_lookup. unfold occurrences.
      rewrite count_if_cons. destruct (eqb k a); simpl; lia.
    + rewrite H4, bump_sum. lia.
Qed.

Lemma group_count_spec keys :
  NoDup (map fst (group_count eqb keys))
  /\ positive (group_count eqb keys)
  /\ (forall a, lookup eqb (group_count eqb keys) a = occurrences eqb keys a)
  /\ list_sum (map snd (group_count eqb keys)) = List.length keys.
Proof.
  destruct (fold_bump keys [] (NoDup_nil _) (Forall_nil _))
    as (H1 & H2 & H3 & H4).
  repeat split; auto.
Qed.

Lemma lookup_In acc :
  NoDup (map fst acc) -> positive acc ->
  forall k c, In (k, c) acc <-> (lookup eqb acc k = c /\ (0 < c)%nat).
Proof.
  induction acc as [|[k' c'] t IH]; simpl; intros Hd Hp k c.
  - split; [intros [] | lia].
  - inversion Hd as [|? ? Hn Hd']; subst.
    inversion Hp as [|? ? Hc Hp']; subst. simpl in Hc.
    destruct (eqb k' k) eqn:E.
    + apply eqb_eq in E. subst k'. split.
      * intros [H|H]; [inversion H; subst; split; [reflexivity | exact Hc]|].
        exfalso. apply Hn. apply (in_map fst) in H. exact H.
      * intros [-> _]. left; reflexivity.
    + rewrite <- (IH Hd' Hp' k c). split.
      * intros [H|H]; [|exact H]. inversion H; subst.
        rewrite eqb_refl' in E. discriminate.
      * intros H. right; exact H.
Qed.

Lemma occurrences_perm keys keys' k :
  Permutation keys keys' -> occurrences eqb keys k = occurrences eqb keys' k.
Proof. apply count_if_perm. Qed.

(** The groups do not depend on the order the rows come in. *)
Lemma group_count_perm keys keys' :
  Permutation keys keys' ->
  Permutation (group_count eqb keys) (group_count eqb keys').
Proof.
  intros H.
  destruct (group_count_spec keys) as (D1 & P1 & L1 & _).
  destruct (group_count_spec keys') as (D2 & P2 & L2 & _).
  apply NoDup_Permutation.
  - eapply NoDup_map_inv; exact D1.
  - eapply NoDup_map_inv; exact D2.
  - intros [k c]. rewrite (lookup_In _ D1 P1), (lookup_In _ D2 P2), L1, L2.
    rewrite (occurrences_perm _ _ k H). reflexivity.
Qed.

End Grouping.

(** ** Ordering *)

Section Ordering.

Context {A : Type}.
Variable leb : A -> A -> bool.
Hypothesis leb_total : forall a b, leb a b = true \/ leb b a = true.

Lemma insert_perm a l : Permutation (a :: l) (insert leb a l).
Proof.
  induction l as [|b t IH]; simpl; [reflexivity|].
  destruct (leb a b); [reflexivity|].
  etransitivity; [apply perm_swap | apply perm_skip; exact IH].
Qed.

Lemma order_by_perm l : Permutation l (order_by leb l).
Proof.
  induction l as [|a t IH]; simpl; [constructor|].
  etransitivity; [apply perm_skip; exact IH | apply insert_perm].
Qed.

Lemma insert_sorted a l :
  Sorted (fun a b => leb a b = true) l ->
  Sorted (fun a b => leb a b = true) (insert leb a l).
Proof.
  induction 1 as [|b t Ht IH Hb]; simpl.
  - repeat constructor.
  - destruct (leb a b) eqn:E.
    + constructor; [constructor; assumption | constructor; exact E].
    + constructor; [exact IH|].
      destruct (leb_total a b) as [H|H]; [congruence|].
      destruct t as [|c t']; simpl.
      * constructor; exact H.
      * destruct (leb a c); constructor; [exact H|].
        inversion Hb; assumption.
Qed.

Lemma order_by_sorted l : Sorted (fun a b => leb a b = true) (order_by leb l).
Proof.
  induction l as [|a t IH]; simpl; [constructor | apply insert_sorted, IH].
Qed.

(** The rows [order_by] returns are among those the clause allows. *)
Lemma order_by_answer l : ordered_answer leb l (order_by leb l).
Proof. split; [apply order_by_perm | apply order_by_sorted]. Qed.

End Ordering.

Section Keyed.

Context {A : Type}.
Variable key : A -> nat.

Lemma key_injective l a b :
  NoDup (map key l) -> In a l -> In b l -> key a = key b -> a = b.
Proof.
  induction l as [|c t IH]; simpl; intros Hd Ha Hb E; [destruct Ha|].
  inversion Hd as [|? ? Hn Hd']; subst.
  destruct Ha as [->|Ha], Hb as [->|Hb]; auto.
  - exfalso. apply Hn. rewrite E. apply in_map; exact Hb.
  - exfalso. apply Hn. rewrite <- E. apply in_map; exact Ha.
Qed.

Lemma sorted_strong l :
  Sorted (fun a b => (key a <=? key b)%nat = true) l ->
  StronglySorted (fun a b => (key a <= key b)%nat) l.
Proof.
  intros H. apply Sorted_StronglySorted.
  - intros a b c; lia.
  - induction H as [|a t Ht IH Ha]; constructor; [exact IH|].
    destruct Ha; constructor. apply Nat.leb_le; assumption.
Qed.

(** Rows with distinct keys have one ascending arrangement. *)
Lemma sorted_unique l1 : forall l2,
  NoDup (map key l1) -> Permutation l1 l2 ->
  StronglySorted (fun a b => (key a <= key b)%nat) l1 ->
  StronglySorted (fun a b => (key a <= key b)%nat) l2 ->
  l1 = l2.
Proof.
  induction l1 as [|a t1 IH]; intros l2 Hd Hp S1 S2.
  - apply Permutation_nil in Hp. congruence.
  - destruct l2 as [|b t2].
    { apply Permutation_sym, Permutation_nil in Hp. discriminate. }
    assert (a = b) as ->.
    { assert (Ha : In a (b :: t2))
        by (eapply Permutation_in; [exact Hp | left; reflexivity]).
      assert (Hb : In b (a :: t1))
        by (eapply Permutation_in;
            [apply Permutation_sym; exact Hp | left; reflexivity]).
      inversion S1 as [|? ? _ F1]; subst. inversion S2 as [|? ? _ F2]; subst.
      rewrite Forall_forall in F1, F2.
      destruct Ha as [Ha|Ha]; [congruence|].
      destruct Hb as [Hb|Hb]; [congruence|].
      apply (key_injective (a :: t1)); auto.
      - left; reflexivity.
      - right; exact Hb.
      - specialize (F1 b Hb). specialize (F2 a Ha). lia. }
    f_equal. inversion Hd; subst. inversion S1; subst. inversion S2; subst.
    apply IH; auto. eapply Permutation_cons_inv; exact Hp.
Qed.

Lemma sorted_strict l :
  NoDup (map key l) ->
  StronglySorted (fun a b => (key a <= key b)%nat) l ->
  StronglySorted (fun a b => (key a < key b)%nat) l.
Proof.
  induction l as [|a t IH]; intros Hd S; [constructor|].
  inversion Hd as [|? ? Hn Hd']; subst. inversion S as [|? ? S' F]; subst.
  constructor; [apply IH; assumption|].
  rewrite Forall_forall in *. intros b Hb. specialize (F b Hb).
  assert (key a <> key b); [|lia].
  intros E. apply Hn. rewrite E. apply in_map; exact Hb.
Qed.

End Keyed.

(** ** The histogram *)

Lemma nat_eqb_eq (a b : nat) : Nat.eqb a b = true <-> a = b.
Proof. apply Nat.eqb_eq. Qed.

Lemma by_degree_asc_total a b :
  by_degree_asc a b = true \/ by_degree_asc b a = true.
Proof.
  unfold by_degree_asc.
  destruct (Nat.leb_spec (fst a) (fst b)); [left; reflexivity|].
  right. apply Nat.leb_le. lia.
Qed.

Lemma by_degree_desc_total a b :
  by_degree_desc a b = true \/ by_degree_desc b a = true.
Proof.
  unfold by_degree_desc.
  destruct (Nat.leb_spec (snd b) (snd a)); [left; reflexivity|].
  right. apply Nat.leb_le. lia.
Qed.

Lemma degree_groups_keys g : NoDup (map fst (degree_groups g)).
Proof. apply (group_count_spec Nat.eqb nat_eqb_eq). Qed.

Lemma ordered_answer_keys (out : list (nat * nat)) g :
  ordered_answer by_degree_asc (degree_groups g) out ->
  NoDup (map fst out)
  /\ StronglySorted (fun a b => (fst a <= fst b)%nat) out.
Proof.
  intros [Hp Hs]. split.
  - eapply Permutation_NoDup; [apply Permutation_map; exact Hp|].
    apply degree_groups_keys.
  - apply (sorted_strong fst). exact Hs.
Qed.

Lemma degree_answer_unique g out :
  ordered_answer by_degree_asc (degree_groups g) out -> out = degree_query g.
Proof.
  intros H.
  pose proof (order_by_answer by_degree_asc by_degree_asc_total
                (degree_groups g)) as Hq.
  fold (degree_query g) in Hq.
  destruct (ordered_answer_keys out g H) as [D1 S1].
  destruct (ordered_answer_keys _ g Hq) as [D2 S2].
  apply (sorted_unique fst); auto.
  destruct H as [Hp _], Hq as [Hp' _].
  etransitivity; [apply Permutation_sym; exact Hp | exact Hp'].
Qed.

Lemma degree_perm g g' i :
  Permutation (rels g) (rels g') -> degree g' i = degree g i.
Proof.
  intros H. symmetry. apply (count_if_perm (incident i)). exact H.
Qed.

Lemma with_degree_perm g g' :
  Permutation (nodes g) (nodes g') -> Permutation (rels g) (rels g') ->
  Permutation (with_degree g) (with_degree g').
Proof.
  intros Hn Hr. unfold with_degree.
  rewrite (map_ext (fun i => (i, degree g' i)) (fun i => (i, degree g i))).
  - apply Permutation_map. exact Hn.
  - intros i. rewrite (degree_perm g g' i Hr). reflexivity.
Qed.

Lemma degree_query_storage g g' :
  Permutation (nodes g) (nodes g') -> Permutation (rels g) (rels g') ->
  degree_query g' = degree_query g.
Proof.
  intros Hn Hr. apply degree_answer_unique.
  destruct (order_by_answer by_degree_asc by_degree_asc_total
              (degree_groups g')) as [Hp Hs].
  split; [|exact Hs].
  etransitivity; [|exact Hp].
  apply (group_count_perm Nat.eqb nat_eqb_eq).
  apply Permutation_map. apply with_degree_perm; assumption.
Qed.

Lemma list_sum_perm l l' : Permutation l l' -> list_sum l = list_sum l'.
Proof.
  induction 1; simpl; lia.
Qed.

Lemma lookup_perm (G1 G2 : list (nat * nat)) k :
  NoDup (map fst G1) -> positive G1 -> Permutation G1 G2 ->
  lookup Nat.eqb G1 k = lookup Nat.eqb G2 k.
Proof.
  intros D1 P1 Hp.
  assert (D2 : NoDup (map fst G2))
    by (eapply Permutation_NoDup; [apply Permutation_map; exact Hp | exact D1]).
  assert (P2 : positive G2)
    by (unfold positive; eapply Permutation_Forall; eassumption).
  pose proof (lookup_In Nat.eqb nat_eqb_eq G1 D1 P1 k) as I1.
  pose proof (lookup_In Nat.eqb nat_eqb_eq G2 D2 P2 k) as I2.
  destruct (Nat.eq_dec (lookup Nat.eqb G1 k) 0) as [E1|E1].
  - destruct (Nat.eq_dec (lookup Nat.eqb G2 k) 0) as [E2|E2]; [congruence|].
    assert (H : In (k, lookup Nat.eqb G2 k) G2) by (apply I2; split; lia).
    apply (Permutation_in _ (Permutation_sym Hp)) in H.
    apply I1 in H. lia.
  - assert (H : In (k, lookup Nat.eqb G1 k) G1) by (apply I1; split; lia).
    apply (Permutation_in _ Hp) in H. apply I2 in H. lia.
Qed.

(** [C3]: for every graph, the rows of [degree_query] have strictly
    ascending, hence unique, degrees; the count of a degree is the number
    of nodes of that degree (nodes of degree 0 included) and the counts sum
    to the number of nodes; and the result is determined by the graph: it
    is the only output the [ORDER BY] clause allows, and it is the same
    for every order in which the store holds the nodes and the
    relationships. *)
Theorem C3_histogram (g : Graph) :
  StronglySorted (fun a b => (fst a < fst b)%nat) (degree_query g)
  /\ NoDup (map fst (degree_query g))
  /\ (forall d, lookup Nat.eqb (degree_query g) d
                = count_if (fun i => Nat.eqb (degree g i) d) (nodes g))
  /\ list_sum (map snd (degree_query g)) = count_intersections g
  /\ (forall out, ordered_answer by_degree_asc (degree_groups g) out ->
                  out = degree_query g)
  /\ (forall g', Permutation (nodes g) (nodes g') ->
                 Permutation (rels g) (rels g') ->
                 degree_query g' = degree_query g).
Proof.
  pose proof (order_by_answer by_degree_asc by_degree_asc_total
                (degree_groups g)) as Hq.
  fold (degree_query g) in Hq.
  destruct (ordered_answer_keys _ g Hq) as [D S].
  destruct (group_count_spec Nat.eqb nat_eqb_eq (map snd (with_degree g)))
    as (GD & GP & GL & GS).
  fold (degree_groups g) in GD, GP, GL, GS.
  destruct Hq as [Hp _].
  repeat split.
  - apply (sorted_strict fst); assumption.
  - exact D.
  - intros d. rewrite <- (lookup_perm _ _ d GD GP Hp), GL.
    unfold occurrences, with_degree, count_if.
    rewrite map_map. simpl.
    induction (nodes g) as [|i t IH]; simpl; [reflexivity|].
    destruct (Nat.eqb (degree g i) d); simpl; congruence.
  - rewrite <- (list_sum_perm _ _ (Permutation_map snd Hp)), GS.
    unfold with_degree, count_intersections. rewrite !length_map.
    reflexivity.
  - apply degree_answer_unique.
  - apply degree_query_storage.
Qed.

Lemma C3_histogram_witness :
  let g := {| nodes := [1; 2; 3]; rels := [(1, 2); (2, 3)] |} in
  let g' := {| nodes := [2; 1; 3]; rels := [(2, 3); (1, 2)] |} in
  Permutation (nodes g) (nodes g')
  /\ Permutation (rels g) (rels g')
  /\ degree_query g' = degree_query g
  /\ degree_query g = [(1, 2); (2, 1)]%nat.
Proof.
  intros g g'.
  assert (Hn : Permutation (nodes g) (nodes g')) by apply perm_swap.
  assert (Hr : Permutation (rels g) (rels g')) by apply perm_swap.
  split; [exact Hn|]. split; [exact Hr|]. split; [|reflexivity].
  destruct (C3_histogram g) as (_ & _ & _ & _ & _ & Hs).
  exact (Hs g' Hn Hr).
Defined.

(** ** The degree sum, the ranking, the categories, the summary *)

(** [C1], as stated, fails: the file [loop_file] loads into a graph with
    one road, from node 7 to itself; the pattern matches that road once
    from node 7, so the degrees sum to 1 and not to 2. *)
Lemma C1_counterexample :
  exists g, load loop_file = Ok g
            /\ loaded g = true
            /\ with_degree g = [(7, 1%nat)]
            /\ count_roads g = 1%nat
            /\ degree_sum g <> (2 * count_roads g)%nat.
Proof.
  eexists. split; [vm_compute; reflexivity|].
  repeat split; try reflexivity. vm_compute. discriminate.
Qed.

Lemma degree_reversed g i : degree (reversed g) i = degree g i.
Proof.
  unfold degree, reversed. simpl.
  induction (rels g) as [|r t IH]; simpl; [reflexivity|].
  assert (E : incident i (snd r, fst r) = incident i r)
    by (unfold incident; simpl; apply orb_comm).
  rewrite E. destruct (incident i r); simpl; rewrite IH; reflexivity.
Qed.

(** [C1], amended: for every loaded graph the degrees sum to twice the
    number of roads less the number of roads that join a node to itself:
    a road between two distinct nodes adds 1 to the degree of each of
    them, whatever its stored direction, and a road from a node to itself
    adds 1 to that node. The sum is twice the number of roads when no road
    is a loop. *)
Theorem C1_degree_sum (g : Graph) :
  loaded g = true ->
  (degree_sum g + self_loops g = 2 * count_roads g)%nat
  /\ (self_loops g = 0%nat -> degree_sum g = (2 * count_roads g)%nat)
  /\ (forall i, degree (reversed g) i = degree g i).
Proof.
  intros H. pose proof (handshake g H). split; [assumption|].
  split; [lia | apply degree_reversed].
Qed.

Lemma C1_degree_sum_witness :
  let g := {| nodes := [1; 2; 3]; rels := [(1, 2); (2, 3)] |} in
  loaded g = true
  /\ (degree_sum g + self_loops g = 2 * count_roads g)%nat
  /\ (self_loops g = 0%nat -> degree_sum g = (2 * count_roads g)%nat)
  /\ (forall i, degree (reversed g) i = degree g i).
Proof.
  intros g.
  assert (H : loaded g = true) by reflexivity.
  split; [exact H | exact (C1_degree_sum g H)].
Defined.

(** ** The Top-10 view *)

Lemma StronglySorted_app {A : Type} (R : A -> A -> Prop) l1 : forall l2,
  StronglySorted R (l1 ++ l2) ->
  StronglySorted R l1 /\ StronglySorted R l2
  /\ (forall a b, In a l1 -> In b l2 -> R a b).
Proof.
  induction l1 as [|c t IH]; simpl; intros l2 H.
  - repeat split; [constructor | exact H | intros a b []].
  - inversion H as [|? ? S F]; subst.
    destruct (IH l2 S) as (S1 & S2 & C).
    rewrite Forall_forall in F. repeat split.
    + constructor; [exact S1|]. rewrite Forall_forall.
      intros a Ha. apply F, in_or_app. left; exact Ha.
    + exact S2.
    + intros a b [->|Ha] Hb; [|apply C; assumption].
      apply F, in_or_app. right; exact Hb.
Qed.

Lemma desc_strong (l : list (Z * nat)) :
  Sorted (fun a b => by_degree_desc a b = true) l ->
  StronglySorted (fun a b => (snd b <= snd a)%nat) l.
Proof.
  intros H. apply Sorted_StronglySorted.
  - intros a b c; lia.
  - induction H as [|a t Ht IH Ha]; constructor; [exact IH|].
    destruct Ha; constructor. apply Nat.leb_le; assumption.
Qed.

Lemma top10_query_answer g : top10_answer g (top10_query g).
Proof.
  exists (order_by by_degree_desc (with_degree g)). split; [|reflexivity].
  apply order_by_answer, by_degree_desc_total.
Qed.

Lemma top10_answer_split g out :
  top10_answer g out ->
  exists rest,
    Permutation (with_degree g) (out ++ rest)
    /\ StronglySorted (fun a b => (snd b <= snd a)%nat) (out ++ rest)
    /\ List.length out = Nat.min 10 (count_intersections g).
Proof.
  intros (sorted & [Hp Hs] & ->). exists (skipn 10 sorted).
  unfold limit. rewrite firstn_skipn. repeat split.
  - exact Hp.
  - apply desc_strong; exact Hs.
  - rewrite length_firstn, <- (Permutation_length Hp).
    unfold with_degree, count_intersections. rewrite length_map. reflexivity.
Qed.

(** [C4], as stated, fails: the file [two_isolated_file] loads into two
    nodes of degree 0, scanned in the order 2, 1; [ORDER BY degree DESC]
    does not tell them apart, and the rows 2, 1 are a result the query
    allows (the one [order_by] returns), against the order by node id. *)
Lemma C4_counterexample :
  exists g, load two_isolated_file = Ok g
            /\ loaded g = true
            /\ top10_query g = [(2, 0%nat); (1, 0%nat)]
            /\ top10_answer g [(2, 0%nat); (1, 0%nat)]
            /\ ~ StronglySorted ranked_before [(2, 0%nat); (1, 0%nat)].
Proof.
  exists {| nodes := [2; 1]; rels := [] |}.
  split; [vm_compute; reflexivity|].
  split; [reflexivity|]. split; [reflexivity|]. split.
  - apply (top10_query_answer {| nodes := [2; 1]; rels := [] |}).
  - intros H. inversion H as [|? ? _ F]; subst.
    inversion F as [|? ? R _]; subst.
    unfold ranked_before in R; simpl in R. lia.
Qed.

(** [C4], amended: every result the query allows is a sequence of
    [min 10 n] rows (node id, degree of that node), in descending
    order of degree, and no node left out has a greater degree than a node
    of the view. The query says nothing on the order, or on the choice at
    the cutoff, among nodes of equal degree. *)
Theorem C4_top10 (g : Graph) (out : list (Z * nat)) :
  top10_answer g out ->
  StronglySorted (fun a b => (snd b <= snd a)%nat) out
  /\ List.length out = Nat.min 10 (count_intersections g)
  /\ (forall r, In r out -> In (fst r) (nodes g) /\ snd r = degree g (fst r))
  /\ exists rest,
       Permutation (with_degree g) (out ++ rest)
       /\ forall a b, In a out -> In b rest -> (snd b <= snd a)%nat.
Proof.
  intros H. destruct (top10_answer_split g out H) as (rest & Hp & Hs & Hl).
  destruct (StronglySorted_app _ _ _ Hs) as (S1 & _ & C).
  split; [exact S1|]. split; [exact Hl|]. split.
  - intros r Hr.
    assert (Hw : In r (with_degree g)).
    { apply (Permutation_in r (Permutation_sym Hp)), in_or_app.
      left; exact Hr. }
    unfold with_degree in Hw. apply in_map_iff in Hw.
    destruct Hw as (i & <- & Hi). split; [exact Hi | reflexivity].
  - exists rest. split; [exact Hp | exact C].
Qed.

Lemma C4_top10_witness :
  let g := {| nodes := [1; 2; 3]; rels := [(1, 2); (2, 3)] |} in
  let out := [(2, 2%nat); (1, 1%nat); (3, 1%nat)] in
  top10_answer g out
  /\ StronglySorted (fun a b => (snd b <= snd a)%nat) out
  /\ List.length out = Nat.min 10 (count_intersections g)
  /\ (forall r, In r out -> In (fst r) (nodes g) /\ snd r = degree g (fst r))
  /\ exists rest,
       Permutation (with_degree g) (out ++ rest)
       /\ forall a b, In a out -> In b rest -> (snd b <= snd a)%nat.
Proof.
  intros g out.
  assert (H : top10_answer g out) by apply (top10_query_answer g).
  split; [exact H | exact (C4_top10 g out H)].
Defined.




(** ** The categories *)

Lemma by_count_desc_total a b :
  by_count_desc a b = true \/ by_count_desc b a = true.
Proof.
  unfold by_count_desc.
  destruct (Nat.leb_spec (snd b) (snd a)); [left; reflexivity|].
  right. apply Nat.leb_le. lia.
Qed.

(** The labels of the degrees 1 to 4 and of 5 and more; the [ELSE] branch
    takes every other degree, which leaves it the degree 0 as well. *)
Lemma category_table (d : nat) :
  (d = 1%nat -> category d = "Dead End (1 road)"%string)
  /\ (d = 2%nat -> category d = "Pass Through (2 roads)"%string)
  /\ (d = 3%nat -> category d = "T-Junction (3 roads)"%string)
  /\ (d = 4%nat -> category d = "Crossroad (4 roads)"%string)
  /\ ((5 <= d)%nat -> category d = "Major Hub (5+ roads)"%string)
  /\ (d = 0%nat -> category d = "Major Hub (5+ roads)"%string).
Proof.
  repeat split; intros H; subst; try reflexivity.
  do 5 (destruct d as [|d]; [lia|]). reflexivity.
Qed.

(** The counts by category total the number of nodes. *)
Lemma categories_total (g : Graph) :
  list_sum (map snd (categories_query g)) = count_intersections g.
Proof.
  unfold categories_query.
  rewrite <- (list_sum_perm _ _
                (Permutation_map snd
                   (order_by_perm by_count_desc (category_groups g)))).
  unfold category_groups.
  destruct (group_count_spec String.eqb String.eqb_eq
              (map (fun r => category (snd r)) (with_degree g)))
    as (_ & _ & _ & Hs).
  rewrite Hs. unfold with_degree, count_intersections.
  rewrite !length_map. reflexivity.
Qed.

(** [C2], at the failing input: the file [isolated_file] loads into one
    node of degree 0, and the [ELSE] branch of the [CASE] counts it under
    the label of the nodes with five roads or more. *)
Theorem C2_isolated_node_is_major_hub :
  exists g, load isolated_file = Ok g
            /\ with_degree g = [(1, 0%nat)]
            /\ category 0 = "Major Hub (5+ roads)"%string
            /\ categories_query g = [("Major Hub (5+ roads)"%string, 1%nat)].
Proof.
  eexists. split; [vm_compute; reflexivity|].
  repeat split; reflexivity.
Qed.

(** [C5]: on the input of scenario A the loader exports the roads (1,2)
    and (2,3) with distances 3.0 and 4.0, the degrees of the nodes 1, 2, 3
    are 1, 2, 1, the histogram is 1 -> 2, 2 -> 1, and the average degree
    is 1.33. *)
Theorem C5_scenario_A :
  ParseData.roads_csv (ParseData.parse_data scenario_A)
  = Some [ParseData.Build_RoadRow 1 2 3%float;
          ParseData.Build_RoadRow 2 3 4%float]
  /\ (exists g, load scenario_A = Ok g
                /\ with_degree g = [(1, 1%nat); (2, 2%nat); (3, 1%nat)]
                /\ degree_query g = [(1%nat, 2%nat); (2%nat, 1%nat)])
  /\ (exists s, Dashboard.pipeline scenario_A = Ok s
                /\ Dashboard.degree_df s = [(1%nat, 2%nat); (2%nat, 1%nat)]
                /\ Dashboard.avg_degree s = 1.33%float).
Proof.
  split; [vm_compute; reflexivity|]. split.
  - eexists. split; [vm_compute; reflexivity|]. split; reflexivity.
  - eexists. split; [vm_compute; reflexivity|]. split; reflexivity.
Qed.

(** [C6], as stated, fails: the file [empty_file] loads, into the graph
    without nodes, and the dashboard stops at the division of the average
    degree with [ZeroDivisionError]. *)
Lemma C6_counterexample :
  load empty_file = Ok {| nodes := []; rels := [] |}
  /\ Dashboard.pipeline empty_file = Raise ZeroDivisionError.
Proof. split; vm_compute; reflexivity. Qed.

(** [C6], amended: when the graph has zero nodes the dashboard raises
    [ZeroDivisionError] at the average degree, its first statistic, so
    that neither the dominant-category percent nor the maximum degree is
    computed; no sentinel value is returned. *)
Theorem C6_zero_nodes_raises (g : Graph) :
  nodes g = [] -> Dashboard.dashboard g = Raise ZeroDivisionError.
Proof.
  intros H. unfold Dashboard.dashboard, count_intersections.
  rewrite H. reflexivity.
Qed.

Lemma C6_zero_nodes_raises_witness :
  nodes {| nodes := []; rels := [] |} = []
  /\ Dashboard.dashboard {| nodes := []; rels := [] |}
     = Raise ZeroDivisionError.
Proof.
  split; [reflexivity|].
  apply (C6_zero_nodes_raises {| nodes := []; rels := [] |}). reflexivity.
Defined.

End Metrics.

(* ================================================================== *)
(** * Properties of the loader *)
(* ================================================================== *)

Section Loader.

Import ParseData Format.

(** ** Indexing and loops *)

Lemma index_nth_error {A : Type} (l : list A) (i : Z) :
  0 <= i ->
  Py.index l i = match nth_error l (Z.to_nat i) with
                 | Some a => Ok a
                 | None => Raise IndexError
                 end.
Proof.
  intros Hi. unfold Py.index. cbv zeta.
  assert (E0 : (i <? 0) = false) by (apply Z.ltb_ge; exact Hi).
  rewrite !E0. simpl.
  destruct (Z.leb_spec (Z.of_nat (List.length l)) i) as [Hn|Hn].
  - assert (E : nth_error l (Z.to_nat i) = None)
      by (apply nth_error_None; lia).
    rewrite E. reflexivity.
  - reflexivity.
Qed.

Lemma index_raises {A : Type} (l : list A) (i : Z) e :
  Py.index l i = Raise e -> e = IndexError.
Proof.
  unfold Py.index. destruct (_ || _); [congruence|].
  destruct (nth_error _ _); congruence.
Qed.

Lemma range_nil a b : b <= a -> Py.range a b = [].
Proof.
  intros H. unfold Py.range. replace (Z.to_nat (b - a)) with 0%nat by lia.
  reflexivity.
Qed.

Lemma range_cons a b : a < b -> Py.range a b = a :: Py.range (a + 1) b.
Proof.
  intros H. unfold Py.range.
  replace (Z.to_nat (b - a)) with (S (Z.to_nat (b - (a + 1)))) by lia.
  simpl. f_equal; [lia|].
  rewrite <- seq_shift, map_map. apply map_ext. intros k. lia.
Qed.

Lemma range_In a b i : In i (Py.range a b) <-> a <= i < b.
Proof.
  unfold Py.range. rewrite in_map_iff. split.
  - intros (k & <- & Hk). apply in_seq in Hk. lia.
  - intros H. exists (Z.to_nat (i - a)). split; [lia|].
    apply in_seq. lia.
Qed.

Section Loops.

Context {S R : Type}.
Variable lines : list Py.text.
Variable parse : Py.text -> result R.
Variable upd : S -> R -> S.

(** A loop over the indices of a section is a pass over its lines. *)
Lemma for_each_section (k : nat) : forall a s,
  0 <= a -> a + Z.of_nat k <= Z.of_nat (List.length lines) ->
  for_each (Py.range a (a + Z.of_nat k)) (body lines parse upd) s
  = (rs <- collect parse (firstn k (skipn (Z.to_nat a) lines)) ;;
     Ok (fold_left upd rs s)).
Proof.
  induction k as [|k IH]; intros a s Ha Hb.
  - rewrite range_nil by lia. reflexivity.
  - rewrite range_cons by lia.
    replace (a + Z.of_nat (Datatypes.S k)) with (a + 1 + Z.of_nat k) by lia.
    simpl for_each. unfold body at 1.
    rewrite index_nth_error by lia.
    destruct (nth_error lines (Z.to_nat a)) as [line|] eqn:E.
    2:{ apply nth_error_None in E. lia. }
    assert (Hs : skipn (Z.to_nat a) lines
                 = line :: skipn (Z.to_nat (a + 1)) lines).
    { replace (Z.to_nat (a + 1)) with (Datatypes.S (Z.to_nat a)) by lia.
      clear - E. revert E. generalize (Z.to_nat a) as n.
      induction lines as [|l t IHl]; intros [|n] E; simpl in *;
        try discriminate.
      - congruence.
      - apply IHl. exact E. }
    rewrite Hs. simpl. destruct (parse line) as [r|e]; simpl; [|reflexivity].
    rewrite IH by lia.
    destruct (collect parse _); reflexivity.
Qed.


Lemma for_each_index_raises idx : forall s i,
  In i idx -> Z.of_nat (List.length lines) <= i ->
  exists e, for_each idx (body lines parse upd) s = Raise e.
Proof.
  induction idx as [|j rest IH]; intros s i Hin Hi; [destruct Hin|].
  simpl. destruct ((body lines parse upd) j s) as [s'|e] eqn:E; simpl; [|eauto].
  destruct Hin as [->|Hin]; [|eapply IH; eassumption].
  unfold body in E. rewrite index_nth_error in E by lia.
  assert (N : nth_error lines (Z.to_nat i) = None)
    by (apply nth_error_None; lia).
  rewrite N in E. discriminate.
Qed.

(** The exceptions of a loop are those of its steps. *)
Lemma for_each_exn (P : exn -> Prop) idx : forall s e,
  (forall line e, parse line = Raise e -> P e) -> P IndexError ->
  for_each idx (body lines parse upd) s = Raise e -> P e.
Proof.
  induction idx as [|j rest IH]; intros s e Hp Hi H; simpl in H;
    [discriminate|].
  destruct ((body lines parse upd) j s) as [s'|e'] eqn:E; simpl in H.
  - eapply IH; eassumption.
  - inversion H; subst. unfold body in E.
    destruct (Py.index lines j) as [line|e0] eqn:E0; simpl in E.
    + destruct (parse line) eqn:E1; simpl in E; [discriminate|].
      inversion E; subst. eapply Hp; eassumption.
    + inversion E; subst. apply index_raises in E0. subst. exact Hi.
Qed.

End Loops.

Lemma for_each_ext {S : Type} (f g : Z -> S -> result S) idx :
  (forall i s, f i s = g i s) ->
  forall s, for_each idx f s = for_each idx g s.
Proof.
  intros H. induction idx as [|i rest IH]; intros s; simpl; [reflexivity|].
  rewrite H. destruct (g i s); simpl; [apply IH | reflexivity].
Qed.

(** ** Records *)

Lemma int_unsigned_raises f e : Py.int_unsigned f = Raise e -> e = ValueError.
Proof.
  unfold Py.int_unsigned. destruct f as [|c t]; [congruence|].
  destruct (Py.is_digit c); [|congruence].
  destruct (Py.int_digits _ _ _) as [[v n]|]; [|congruence].
  destruct (_ <? _)%nat; congruence.
Qed.

Lemma int_raises f e : Py.int f = Raise e -> e = ValueError.
Proof.
  unfold Py.int. destruct f as [|c t]; [congruence|].
  destruct (Ascii.eqb c Py.minus_sign).
  - destruct (Py.int_unsigned t) eqn:E; simpl; [congruence|].
    intros H; inversion H; subst. eapply int_unsigned_raises; eassumption.
  - destruct (Ascii.eqb c Py.plus_sign); apply int_unsigned_raises.
Qed.






Ltac exn_cases H :=
  repeat match type of H with
         | bind (Py.index ?l ?i) _ = Raise _ =>
             let E := fresh "E" in
             destruct (Py.index l i) eqn:E; simpl in H;
             [| inversion H; subst; apply index_raises in E; left; exact E]
         | bind (Py.int ?f) _ = Raise _ =>
             let E := fresh "E" in
             destruct (Py.int f) eqn:E; simpl in H;
             [| inversion H; subst; apply int_raises in E; right; exact E]
         end.

Lemma header_exn lines e : parse_header lines = Raise e -> parse_exn e.
Proof.
  unfold parse_header, parse_exn. intros H. exn_cases H. discriminate.
Qed.

Lemma vertex_record_exn line e : vertex_record line = Raise e -> parse_exn e.
Proof.
  unfold vertex_record, parse_exn. intros H. cbv zeta in H. exn_cases H.
  discriminate.
Qed.

Lemma edge_record_exn line e : edge_record line = Raise e -> parse_exn e.
Proof.
  unfold edge_record, parse_exn. intros H. cbv zeta in H.
  destruct (2 <=? _); [|discriminate]. exn_cases H. discriminate.
Qed.

(** ** The two loops of the loader, section by section *)

Lemma parse_vertices_body lines n :
  parse_vertices lines n
  = for_each (Py.range 1 (n + 1)) (body lines vertex_record set_record) [].
Proof.
  unfold parse_vertices. apply for_each_ext. intros i s. unfold body.
  destruct (Py.index lines i); simpl; [|reflexivity].
  destruct (vertex_record _) as [[k v]|]; reflexivity.
Qed.

Lemma parse_edges_body lines n :
  parse_edges lines n
  = for_each (Py.range (n + 1) (Z.of_nat (List.length lines)))
      (body lines edge_record add_edge) [].
Proof. reflexivity. Qed.

Lemma parse_vertices_view lines n :
  0 <= n < Z.of_nat (List.length lines) ->
  parse_vertices lines n
  = (recs <- collect vertex_record (coordinate_lines lines n) ;;
     Ok (vertices_of recs)).
Proof.
  intros H. rewrite parse_vertices_body.
  replace (n + 1) with (1 + Z.of_nat (Z.to_nat n)) by lia.
  rewrite for_each_section by lia. reflexivity.
Qed.

Lemma parse_edges_view lines n :
  0 <= n ->
  parse_edges lines n
  = (es <- collect edge_record (edge_lines lines n) ;; Ok (edges_of es)).
Proof.
  intros H. rewrite parse_edges_body. unfold edge_lines.
  destruct (Z.le_gt_cases (n + 1) (Z.of_nat (List.length lines))) as [L|L].
  - replace (Z.of_nat (List.length lines))
      with (n + 1 + Z.of_nat (List.length lines - Z.to_nat (n + 1))) at 1
      by lia.
    rewrite for_each_section by lia.
    rewrite firstn_all2 by (rewrite length_skipn; lia). reflexivity.
  - rewrite range_nil by lia. rewrite skipn_all2 by lia. reflexivity.
Qed.

(** ** Inputs the loader stops on *)


Lemma is_ok_true {A : Type} (m : result A) :
  is_ok m = true -> exists a, m = Ok a.
Proof. destruct m; simpl; [eauto | discriminate]. Qed.



Lemma header_nonempty lines n m :
  parse_header lines = Ok (n, m) -> (0 < List.length lines)%nat.
Proof.
  destruct lines; [discriminate | simpl; lia].
Qed.

(** Everything the parsing raises is an [IndexError] or a [ValueError]. *)
Lemma parse_phase_exn content e :
  parse_phase content = Raise e -> parse_exn e.
Proof.
  unfold parse_phase. cbv zeta.
  destruct (parse_header _) as [[n m]|e0] eqn:Eh; simpl.
  2:{ intros H; inversion H; subst. eapply header_exn; eassumption. }
  destruct (parse_vertices _ n) as [v|e1] eqn:Ev; simpl.
  2:{ intros H; inversion H; subst. rewrite parse_vertices_body in Ev.
      eapply (for_each_exn _ vertex_record set_record parse_exn);
        [apply vertex_record_exn | left; reflexivity | exact Ev]. }
  destruct (parse_edges _ n) as [es|e2] eqn:Ee; simpl; [discriminate|].
  intros H; inversion H; subst. rewrite parse_edges_body in Ee.
  eapply (for_each_exn _ edge_record add_edge parse_exn);
    [apply edge_record_exn | left; reflexivity | exact Ee].
Qed.





(** ** The dict *)

Lemma dict_find_set d k v k' :
  dict_find (dict_set d k v) k'
  = if k =? k' then Some v else dict_find d k'.
Proof.
  induction d as [|[k0 v0] t IH]; simpl.
  - reflexivity.
  - destruct (Z.eqb_spec k0 k) as [->|Hk]; simpl.
    + destruct (k =? k'); reflexivity.
    + destruct (Z.eqb_spec k0 k') as [->|Hk'].
      * destruct (Z.eqb_spec k k'); [congruence | reflexivity].
      * exact IH.
Qed.

Lemma dict_set_keys d k v i :
  In i (map fst (dict_set d k v)) <-> i = k \/ In i (map fst d).
Proof.
  induction d as [|[k0 v0] t IH]; simpl.
  - intuition congruence.
  - destruct (Z.eqb_spec k0 k) as [->|Hk]; simpl.
    + intuition congruence.
    + rewrite IH. intuition congruence.
Qed.

Lemma dict_set_NoDup d k v :
  NoDup (map fst d) -> NoDup (map fst (dict_set d k v)).
Proof.
  induction d as [|[k0 v0] t IH]; simpl; intros H.
  - constructor; [intros [] | constructor].
  - inversion H as [|? ? Hn Hd]; subst.
    destruct (Z.eqb_spec k0 k) as [->|Hk]; simpl.
    + constructor; assumption.
    + constructor; [|apply IH; exact Hd].
      rewrite dict_set_keys. intros [E|Hin]; [congruence | contradiction].
Qed.

Lemma dict_find_app d1 d2 i :
  dict_find (d1 ++ d2) i
  = match dict_find d1 i with Some v => Some v | None => dict_find d2 i end.
Proof.
  induction d1 as [|[k v] t IH]; simpl; [reflexivity|].
  destruct (k =? i); [reflexivity | exact IH].
Qed.

Lemma dict_find_In d i v :
  NoDup (map fst d) -> (In (i, v) d <-> dict_find d i = Some v).
Proof.
  induction d as [|[k0 v0] t IH]; simpl; intros H.
  - split; [intros [] | discriminate].
  - inversion H as [|? ? Hn Hd]; subst.
    destruct (Z.eqb_spec k0 i) as [->|Hk].
    + split.
      * intros [E|Hin]; [congruence|].
        exfalso. apply Hn. apply (in_map fst) in Hin. exact Hin.
      * intros E. left. congruence.
    + rewrite <- (IH Hd). split; [|intros Hin; right; exact Hin].
      intros [E|Hin]; [congruence | exact Hin].
Qed.

Lemma dict_find_keys d i :
  In i (map fst d) <-> exists v, dict_find d i = Some v.
Proof.
  induction d as [|[k0 v0] t IH]; simpl.
  - split; [intros [] | intros [v H]; discriminate].
  - destruct (Z.eqb_spec k0 i) as [->|Hk].
    + split; [eauto | left; reflexivity].
    + rewrite <- IH. intuition congruence.
Qed.

Lemma dict_find_mem d i v : dict_find d i = Some v -> In (i, v) d.
Proof.
  induction d as [|[k0 v0] t IH]; simpl; [discriminate|].
  destruct (Z.eqb_spec k0 i) as [->|Hk].
  - intros E. left. congruence.
  - intros E. right. apply IH. exact E.
Qed.

Lemma fold_set_record recs : forall d,
  NoDup (map fst d) ->
  let d' := fold_left set_record recs d in
  NoDup (map fst d')
  /\ (forall i, In i (map fst d') <-> In i (map fst recs) \/ In i (map fst d))
  /\ (forall i, dict_find d' i
                = match dict_find (rev recs) i with
                  | Some v => Some v
                  | None => dict_find d i
                  end).
Proof.
  induction recs as [|[k v] t IH]; intros d Hd; simpl.
  - repeat split; auto; intuition.
  - destruct (IH (set_record d (k, v)) (dict_set_NoDup d k v Hd))
      as (H1 & H2 & H3).
    split; [exact H1|]. split.
    + intros i. rewrite H2. unfold set_record. simpl.
      rewrite dict_set_keys. intuition congruence.
    + intros i. rewrite H3, dict_find_app. unfold set_record. simpl.
      rewrite dict_find_set.
      destruct (dict_find (rev t) i); [reflexivity|].
      destruct (k =? i); reflexivity.
Qed.

Lemma vertices_of_spec recs :
  NoDup (map fst (vertices_of recs))
  /\ (forall i, In i (map fst (vertices_of recs)) <-> In i (map fst recs))
  /\ (forall i, dict_find (vertices_of recs) i = last_coords recs i).
Proof.
  destruct (fold_set_record recs [] (NoDup_nil _)) as (H1 & H2 & H3).
  split; [exact H1|]. split.
  - intros i. rewrite H2. simpl. intuition.
  - intros i. rewrite H3. unfold last_coords.
    destruct (dict_find (rev recs) i); reflexivity.
Qed.

Lemma node_rows_ids d : map id (node_rows d) = map fst d.
Proof. unfold node_rows. rewrite map_map. reflexivity. Qed.

Lemma vertices_of_length recs :
  (List.length (vertices_of recs) <= List.length recs)%nat
  /\ (~ NoDup (map fst recs) ->
      (List.length (vertices_of recs) < List.length recs)%nat).
Proof.
  destruct (vertices_of_spec recs) as (Hd & Hk & _).
  assert (Hi : incl (map fst (vertices_of recs)) (map fst recs))
    by (intros i; apply Hk).
  pose proof (NoDup_incl_length Hd Hi) as Hl. rewrite !length_map in Hl.
  split; [exact Hl|]. intros Hn.
  destruct (Nat.eq_dec (List.length (vertices_of recs)) (List.length recs))
    as [E|E]; [|lia].
  exfalso. apply Hn. apply (NoDup_incl_NoDup Hd); [|exact Hi].
  rewrite !length_map. lia.
Qed.

(** ** The rows of the edge table *)

Lemma bound_room :
  8 * coordinate_bound * coordinate_bound <= Py.float_overflow_bound.
Proof. apply Z.leb_le. vm_compute. reflexivity. Qed.

Lemma square_below d B : - (2 * B) < d < 2 * B -> 0 <= d * d < 4 * B * B.
Proof.
  intros H. split; [apply Z.square_nonneg|].
  assert (P : 0 < (2 * B - d) * (2 * B + d)) by (apply Z.mul_pos_pos; lia).
  replace ((2 * B - d) * (2 * B + d)) with (4 * B * B - d * d) in P by ring.
  lia.
Qed.

Lemma squared_distance_in_range x1 y1 x2 y2 :
  bounded (x1, y1) = true -> bounded (x2, y2) = true ->
  Z.abs ((x2 - x1) ^ 2 + (y2 - y1) ^ 2) < Py.float_overflow_bound.
Proof.
  unfold bounded. cbn [fst snd]. rewrite !andb_true_iff, !Z.ltb_lt.
  intros [Hx1 Hy1] [Hx2 Hy2]. pose proof bound_room as HB.
  generalize dependent coordinate_bound. intros B Hx1 Hy1 Hx2 Hy2 HB.
  apply Z.abs_lt in Hx1, Hy1, Hx2, Hy2.
  rewrite !Z.pow_2_r.
  pose proof (square_below (x2 - x1) B ltac:(lia)) as Hx.
  pose proof (square_below (y2 - y1) B ltac:(lia)) as Hy.
  rewrite Z.abs_eq by lia. lia.
Qed.

Lemma road_row_ok (v : dict) s t :
  (forall i xy, dict_find v i = Some xy -> bounded xy = true) ->
  In s (map fst v) -> In t (map fst v) ->
  exists r, road_row v (s, t) = Ok r /\ endpoints r = (s, t).
Proof.
  intros Hb Hs Ht.
  apply dict_find_keys in Hs. destruct Hs as [[x1 y1] Es].
  apply dict_find_keys in Ht. destruct Ht as [[x2 y2] Et].
  pose proof (squared_distance_in_range x1 y1 x2 y2
                (Hb _ _ Es) (Hb _ _ Et)) as Hd.
  apply Z.leb_gt in Hd.
  unfold road_row, dict_get. rewrite Es, Et. cbn [bind].
  unfold Py.math_sqrt, Py.float_of_int. rewrite Hd. cbn [bind].
  eexists. split; reflexivity.
Qed.

Lemma write_roads_ok (v : dict) edges : forall written,
  (forall e, In e edges ->
             exists r, road_row v e = Ok r /\ endpoints r = e) ->
  exists rows,
    write_roads v edges written = (written ++ rows, Ok tt)
    /\ map endpoints rows = edges.
Proof.
  induction edges as [|e rest IH]; intros written H; simpl.
  - exists []. rewrite app_nil_r. split; reflexivity.
  - destruct (H e (or_introl eq_refl)) as (r & Er & Ee). rewrite Er.
    destruct (IH (written ++ [r]) (fun e' He' => H e' (or_intror He')))
      as (rows & Ew & Em).
    exists (r :: rows). rewrite Ew, <- app_assoc. simpl.
    split; [reflexivity | congruence].
Qed.

Lemma fold_add_edge es : forall acc,
  fold_left add_edge es acc = acc ++ flatten es.
Proof.
  induction es as [|[st|] t IH]; intros acc; simpl.
  - rewrite app_nil_r. reflexivity.
  - rewrite IH, <- app_assoc. reflexivity.
  - apply IH.
Qed.

Lemma edges_of_flatten es : edges_of es = flatten es.
Proof. apply (fold_add_edge es []). Qed.


Lemma collect_length {R : Type} (parse : Py.text -> result R) ls :
  forall rs, collect parse ls = Ok rs -> List.length rs = List.length ls.
Proof.
  induction ls as [|l rest IH]; simpl; intros rs H.
  - inversion H; reflexivity.
  - destruct (parse l); simpl in H; [|discriminate].
    destruct (collect parse rest); simpl in H; [|discriminate].
    inversion H; subst. simpl. f_equal. apply IH. reflexivity.
Qed.

Lemma forallb_known_flatten ids es :
  forallb (known ids) es = true ->
  forall s t, In (s, t) (flatten es) -> In s ids /\ In t ids.
Proof.
  induction es as [|[[s0 t0]|] rest IH]; simpl; intros H s t Hin.
  - destruct Hin.
  - apply andb_true_iff in H. destruct H as [Hk Hr].
    apply andb_true_iff in Hk. rewrite !mem_In in Hk.
    destruct Hin as [E|Hin]; [inversion E; subst; exact Hk | eauto].
  - eauto.
Qed.

(** What a run on a well-formed input does. *)
Lemma well_formed_run content :
  well_formed content = true ->
  exists n m recs es rows,
    parse_header (Py.readlines content) = Ok (n, m)
    /\ collect vertex_record (coordinate_lines (Py.readlines content) n)
       = Ok recs
    /\ Z.of_nat (List.length recs) = n
    /\ collect edge_record (edge_lines (Py.readlines content) n) = Ok es
    /\ map endpoints rows = flatten es
    /\ parse_data content
       = {| intersections_csv := Some (node_rows (vertices_of recs));
            roads_csv := Some rows;
            outcome := Ok tt |}.
Proof.
  unfold well_formed, parse_data, parse_phase. cbv zeta.
  set (lines := Py.readlines content).
  destruct (parse_header lines) as [[n m]|] eqn:Eh; [|discriminate].
  intros H. apply andb_true_iff in H. destruct H as [Hn H].
  apply andb_true_iff in Hn. destruct Hn as [Hn0 Hn1].
  apply Z.leb_le in Hn0. apply Z.ltb_lt in Hn1.
  destruct (collect vertex_record _) as [recs|] eqn:Ev; [|discriminate].
  apply andb_true_iff in H. destruct H as [Hb H].
  destruct (collect edge_record _) as [es|] eqn:Ee; [|discriminate].
  simpl. rewrite parse_vertices_view, Ev by lia. simpl.
  rewrite parse_edges_view, Ee by lia. simpl.
  destruct (vertices_of_spec recs) as (Hd & Hk & Hf).
  destruct (write_roads_ok (vertices_of recs) (edges_of es) []) as
    (rows & Ew & Em).
  { intros [s t] Hin. rewrite edges_of_flatten in Hin.
    destruct (forallb_known_flatten _ _ H s t Hin) as [Hs Ht].
    apply road_row_ok.
    - intros i xy Ei. rewrite Hf in Ei. unfold last_coords in Ei.
      apply dict_find_mem, in_rev in Ei.
      rewrite forallb_forall in Hb. apply (Hb (i, xy) Ei).
    - apply Hk. exact Hs.
    - apply Hk. exact Ht. }
  exists n, m, recs, es, rows. rewrite Ew. simpl.
  repeat split; auto.
  - apply collect_length in Ev. rewrite Ev. unfold coordinate_lines.
    rewrite length_firstn, length_skipn. lia.
  - rewrite Em. apply edges_of_flatten.
Qed.

(** [C9]: on a well-formed input, in which the coordinate section may name
    an id more than once, the run ends without exception and the node
    table has one row per distinct id of the coordinate records, each with
    the coordinates of the last record of its id; the table has at most as
    many rows as the header's node count, and fewer when an id is
    repeated. *)
Theorem C9_duplicate_ids (content : Py.text) :
  well_formed content = true ->
  exists n m recs rows,
    parse_header (Py.readlines content) = Ok (n, m)
    /\ collect vertex_record (coordinate_lines (Py.readlines content) n)
       = Ok recs
    /\ Z.of_nat (List.length recs) = n
    /\ outcome (parse_data content) = Ok tt
    /\ intersections_csv (parse_data content) = Some rows
    /\ NoDup (map id rows)
    /\ (forall i, In i (map id rows) <-> In i (map fst recs))
    /\ (forall row, In row rows ->
                    last_coords recs (id row) = Some (x row, y row))
    /\ (List.length rows <= List.length recs)%nat
    /\ (~ NoDup (map fst recs) ->
        (List.length rows < List.length recs)%nat).
Proof.
  intros H.
  destruct (well_formed_run content H)
    as (n & m & recs & es & rows & Eh & Ev & El & _ & _ & Er).
  destruct (vertices_of_spec recs) as (Hd & Hk & Hf).
  destruct (vertices_of_length recs) as (L1 & L2).
  assert (Hl : List.length (node_rows (vertices_of recs))
               = List.length (vertices_of recs))
    by (unfold node_rows; apply length_map).
  exists n, m, recs, (node_rows (vertices_of recs)).
  rewrite Er, Hl, node_rows_ids. simpl.
  repeat split; auto; try apply Hk.
  intros row Hin. unfold node_rows in Hin. apply in_map_iff in Hin.
  destruct Hin as ([k [x0 y0]] & <- & Hin). simpl.
  rewrite <- Hf. apply dict_find_In; assumption.
Qed.

Lemma C9_duplicate_ids_witness :
  well_formed duplicates_file = true
  /\ exists n m recs rows,
       parse_header (Py.readlines duplicates_file) = Ok (n, m)
       /\ collect vertex_record
            (coordinate_lines (Py.readlines duplicates_file) n) = Ok recs
       /\ Z.of_nat (List.length recs) = n
       /\ outcome (parse_data duplicates_file) = Ok tt
       /\ intersections_csv (parse_data duplicates_file) = Some rows
       /\ NoDup (map id rows)
       /\ (forall i, In i (map id rows) <-> In i (map fst recs))
       /\ (forall row, In row rows ->
                       last_coords recs (id row) = Some (x row, y row))
       /\ (List.length rows <= List.length recs)%nat
       /\ (~ NoDup (map fst recs) ->
           (List.length rows < List.length recs)%nat).
Proof.
  assert (H : well_formed duplicates_file = true)
    by (vm_compute; reflexivity).
  split; [exact H | exact (C9_duplicate_ids duplicates_file H)].
Defined.

Example duplicates_tables :
  parse_data duplicates_file
  = {| intersections_csv := Some [Build_NodeRow 1 0 4; Build_NodeRow 2 3 0];
       roads_csv := Some [Build_RoadRow 1 2 5%float;
                          Build_RoadRow 1 2 5%float;
                          Build_RoadRow 2 1 5%float];
       outcome := Ok tt |}.
Proof. vm_compute. reflexivity. Qed.



(** ** Every graph the loader hands over is a loaded graph *)

Lemma for_each_invariant {S : Type} (P : S -> Prop)
  (f : Z -> S -> result S) idx :
  (forall i s s', P s -> f i s = Ok s' -> P s') ->
  forall s s', P s -> for_each idx f s = Ok s' -> P s'.
Proof.
  intros Hf. induction idx as [|i rest IH]; simpl; intros s s' Hs H.
  - inversion H; subst; exact Hs.
  - destruct (f i s) as [s1|] eqn:E; simpl in H; [|discriminate].
    eapply IH; [eapply Hf; eassumption | exact H].
Qed.

Lemma parse_vertices_NoDup lines n d :
  parse_vertices lines n = Ok d -> NoDup (map fst d).
Proof.
  rewrite parse_vertices_body.
  apply (for_each_invariant (fun d => NoDup (map fst d))); [|constructor].
  intros i s s' Hs H. unfold body in H.
  destruct (Py.index lines i); simpl in H; [|discriminate].
  destruct (vertex_record _) as [r|]; simpl in H; [|discriminate].
  inversion H; subst. apply dict_set_NoDup. exact Hs.
Qed.

Lemma road_row_endpoints v e r :
  road_row v e = Ok r ->
  endpoints r = e /\ In (fst e) (map fst v) /\ In (snd e) (map fst v).
Proof.
  destruct e as [s t]. unfold road_row, dict_get.
  destruct (dict_find v s) as [[x1 y1]|] eqn:Es; cbn [bind]; [|discriminate].
  destruct (dict_find v t) as [[x2 y2]|] eqn:Et; cbn [bind]; [|discriminate].
  destruct (Py.math_sqrt _); cbn [bind]; [|discriminate].
  intros H; inversion H; subst. split; [reflexivity|].
  split; apply dict_find_keys; eauto.
Qed.

Lemma write_roads_endpoints v edges : forall written rows st,
  write_roads v edges written = (rows, st) ->
  Forall (fun r => In (source r) (map fst v) /\ In (target r) (map fst v))
    written ->
  Forall (fun r => In (source r) (map fst v) /\ In (target r) (map fst v))
    rows.
Proof.
  induction edges as [|e rest IH]; simpl; intros written rows st H Hw.
  - inversion H; subst; exact Hw.
  - destruct (road_row v e) as [r|] eqn:E.
    + apply (IH _ _ _ H). apply Forall_app. split; [exact Hw|].
      constructor; [|constructor].
      destruct (road_row_endpoints v e r E) as (Ee & Hs & Ht).
      unfold endpoints in Ee. rewrite <- Ee in Hs, Ht. exact (conj Hs Ht).
    + inversion H; subst; exact Hw.
Qed.

Lemma load_loaded content g :
  Store.load content = Ok g -> Store.loaded g = true.
Proof.
  unfold Store.load, parse_data, parse_phase. cbv zeta.
  destruct (parse_header _) as [[n m]|]; simpl; [|discriminate].
  destruct (parse_vertices _ n) as [v|] eqn:Ev; simpl; [|discriminate].
  destruct (parse_edges _ n) as [es|]; simpl; [|discriminate].
  destruct (write_roads v es []) as [rows st] eqn:Ew. simpl.
  destruct st; simpl; [|discriminate].
  intros H; inversion H; subst. apply loaded_spec. simpl.
  rewrite node_rows_ids. split; [eapply parse_vertices_NoDup; exact Ev|].
  apply Forall_map. simpl.
  eapply write_roads_endpoints; [exact Ew | constructor].
Qed.

End Loader.

(* ================================================================== *)
(** * Further properties of the two scripts *)
(* ================================================================== *)

Section LoaderOutput.

Import ParseData Format More.

(** ** What the loader leaves in the two tables *)


Lemma road_row_exn v e ex :
  road_row v e = Raise ex -> ex = KeyError \/ ex = OverflowError.
Proof.
  destruct e as [s t]. unfold road_row, dict_get.
  destruct (dict_find v s) as [[x1 y1]|]; cbn [bind];
    [|intros H; inversion H; left; reflexivity].
  destruct (dict_find v t) as [[x2 y2]|]; cbn [bind];
    [|intros H; inversion H; left; reflexivity].
  unfold Py.math_sqrt, Py.float_of_int.
  destruct (_ <=? _); cbn [bind]; [|discriminate].
  intros H; inversion H; right; reflexivity.
Qed.

Lemma road_row_KeyError v s t :
  road_row v (s, t) = Raise KeyError
  <-> dict_find v s = None \/ dict_find v t = None.
Proof.
  unfold road_row, dict_get.
  destruct (dict_find v s) as [[x1 y1]|]; cbn [bind];
    [|split; [left; reflexivity | reflexivity]].
  destruct (dict_find v t) as [[x2 y2]|]; cbn [bind];
    [|split; [right; reflexivity | reflexivity]].
  unfold Py.math_sqrt, Py.float_of_int.
  destruct (_ <=? _); cbn [bind];
    (split; [discriminate | intros [H|H]; discriminate]).
Qed.

Lemma write_roads_stops v pre : forall rows e post ex written,
  Forall2 (fun e r => road_row v e = Ok r) pre rows ->
  road_row v e = Raise ex ->
  write_roads v (pre ++ e :: post) written = (written ++ rows, Raise ex).
Proof.
  induction pre as [|e0 pre IH]; intros rows e post ex written HF He.
  - inversion HF; subst. simpl. rewrite He, app_nil_r. reflexivity.
  - inversion HF as [|? r ? rows' Hr HF']; subst. simpl. rewrite Hr.
    rewrite (IH rows' e post ex (written ++ [r]) HF' He), <- app_assoc.
    reflexivity.
Qed.

Lemma write_roads_exn v edges : forall written rows ex,
  write_roads v edges written = (rows, Raise ex) ->
  ex = KeyError \/ ex = OverflowError.
Proof.
  induction edges as [|e rest IH]; simpl; intros written rows ex H.
  - inversion H.
  - destruct (road_row v e) as [r|ex'] eqn:E.
    + eapply IH; exact H.
    + inversion H; subst. eapply road_row_exn; exact E.
Qed.

(** Whatever the input and however the run ends, the rows it wrote are
    consistent: no id stands twice in the node table, and the source and
    the target of every row of the edge table are ids of the node
    table. *)
Theorem tables_consistent (content : Py.text) :
  let run := parse_data content in
  let ids := map id (Store.rows_of (intersections_csv run)) in
  NoDup ids
  /\ Forall (fun r => In (source r) ids /\ In (target r) ids)
       (Store.rows_of (roads_csv run)).
Proof.
  unfold parse_data, parse_phase. cbv zeta.
  destruct (parse_header _) as [[n m]|]; simpl;
    [|split; constructor].
  destruct (parse_vertices _ n) as [v|] eqn:Ev; simpl;
    [|split; constructor].
  destruct (parse_edges _ n) as [es|]; simpl; [|split; constructor].
  destruct (write_roads v es []) as [rows st] eqn:Ew. simpl.
  rewrite node_rows_ids. split.
  - eapply parse_vertices_NoDup; exact Ev.
  - eapply write_roads_endpoints; [exact Ew | constructor].
Qed.

(** A run ends in one of three ways: without exception, with both tables
    written; with an [IndexError] or a [ValueError] of the parsing, with
    neither file opened; or with a [KeyError] or an [OverflowError] of the
    writing of the edge table, with the node table complete. *)
Theorem run_outcomes (content : Py.text) :
  let run := parse_data content in
  match outcome run with
  | Ok _ =>
      intersections_csv run <> None /\ roads_csv run <> None
  | Raise e =>
      ((e = IndexError \/ e = ValueError)
       /\ intersections_csv run = None /\ roads_csv run = None)
      \/ ((e = KeyError \/ e = OverflowError)
          /\ exists v edges,
               parse_phase content = Ok (v, edges)
               /\ intersections_csv run = Some (node_rows v)
               /\ roads_csv run <> None)
  end.
Proof.
  unfold parse_data. cbv zeta.
  destruct (parse_phase content) as [[v edges]|e] eqn:Ep.
  - destruct (write_roads v edges []) as [rows st] eqn:Ew. simpl.
    destruct st as [u|e]; [split; discriminate|].
    right. split; [eapply write_roads_exn; exact Ew|].
    exists v, edges. repeat split; discriminate.
  - simpl. left. split; [exact (parse_phase_exn content e Ep)|].
    split; reflexivity.
Qed.

(** The writing of the edge table stops at the first edge whose row cannot
    be made: the node table is complete, the rows of the edges before it
    are in the file, and the exception is a [KeyError] exactly when the
    edge names an id without coordinates. *)
Theorem first_failing_edge (content : Py.text) (v : dict)
  (pre post : list (Z * Z)) (e : Z * Z) (rows : list RoadRow) (ex : exn) :
  parse_phase content = Ok (v, pre ++ e :: post) ->
  Forall2 (fun e r => road_row v e = Ok r) pre rows ->
  road_row v e = Raise ex ->
  parse_data content
  = {| intersections_csv := Some (node_rows v);
       roads_csv := Some rows;
       outcome := Raise ex |}
  /\ (ex = KeyError
      <-> dict_find v (fst e) = None \/ dict_find v (snd e) = None).
Proof.
  intros Hp HF He. split.
  - unfold parse_data. rewrite Hp.
    rewrite (write_roads_stops v pre rows e post ex [] HF He). reflexivity.
  - destruct e as [s t]. simpl. rewrite <- road_row_KeyError. split.
    + intros ->. exact He.
    + intros H. congruence.
Qed.

Lemma first_failing_edge_witness :
  let content := file_of ["2 3"; "1 0 0"; "2 3 4"; "1 2"; "1 9"; "2 1"]%string in
  let v := [(1, (0, 0)); (2, (3, 4))] in
  let rows := [Build_RoadRow 1 2 5%float] in
  parse_phase content = Ok (v, [(1, 2)] ++ (1, 9) :: [(2, 1)])
  /\ parse_data content
     = {| intersections_csv := Some (node_rows v);
          roads_csv := Some rows;
          outcome := Raise KeyError |}
  /\ (KeyError = KeyError
      <-> dict_find v (fst (1, 9)) = None \/ dict_find v (snd (1, 9)) = None).
Proof.
  intros content v rows.
  assert (Hp : parse_phase content = Ok (v, [(1, 2)] ++ (1, 9) :: [(2, 1)]))
    by (vm_compute; reflexivity).
  assert (HF : Forall2 (fun e r => road_row v e = Ok r) [(1, 2)] rows)
    by (constructor; [vm_compute; reflexivity | constructor]).
  assert (He : road_row v (1, 9) = Raise KeyError) by reflexivity.
  split; [exact Hp|].
  exact (first_failing_edge content v [(1, 2)] [(2, 1)] (1, 9) rows KeyError
           Hp HF He).
Defined.

(** ** The distance of a row *)

Lemma squared_distance_sym a b : squared_distance a b = squared_distance b a.
Proof. unfold squared_distance. rewrite !Z.pow_2_r. ring. Qed.

Lemma road_row_distance v s t :
  road_row v (s, t)
  = (a <- dict_get v s ;;
     b <- dict_get v t ;;
     d <- Py.math_sqrt (squared_distance a b) ;;
     Ok {| source := s; target := t; distance := Py.round d 2 |}).
Proof.
  unfold road_row. destruct (dict_get v s) as [[x1 y1]|]; cbn [bind];
    [|reflexivity].
  destruct (dict_get v t) as [[x2 y2]|]; reflexivity.
Qed.

(** The distance of an edge does not depend on which end is written
    first: when the row of (s, t) can be made, so can the row of (t, s),
    with the same distance. *)
Theorem distance_symmetric (v : dict) (s t : Z) (r : RoadRow) :
  road_row v (s, t) = Ok r ->
  road_row v (t, s)
  = Ok {| source := t; target := s; distance := distance r |}.
Proof.
  rewrite !road_row_distance.
  destruct (dict_get v s) as [a|]; cbn [bind]; [|discriminate].
  destruct (dict_get v t) as [b|]; cbn [bind]; [|discriminate].
  rewrite (squared_distance_sym b a).
  destruct (Py.math_sqrt _) as [d|]; cbn [bind]; [|discriminate].
  intros H; inversion H; reflexivity.
Qed.

Lemma distance_symmetric_witness :
  let v := [(1, (0, 0)); (2, (3, 4))] in
  road_row v (1, 2) = Ok (Build_RoadRow 1 2 5%float)
  /\ road_row v (2, 1) = Ok (Build_RoadRow 2 1 5%float).
Proof.
  intros v.
  assert (H : road_row v (1, 2) = Ok (Build_RoadRow 1 2 5%float))
    by (vm_compute; reflexivity).
  split; [exact H | exact (distance_symmetric v 1 2 _ H)].
Defined.

(** Two ends with the same coordinates, and so every road from a node to
    itself, get the distance 0. *)
Theorem distance_zero (v : dict) (s t : Z) (c : coords) :
  dict_find v s = Some c -> dict_find v t = Some c ->
  road_row v (s, t) = Ok {| source := s; target := t; distance := 0%float |}.
Proof.
  intros Hs Ht. rewrite road_row_distance. unfold dict_get.
  rewrite Hs, Ht. cbn [bind].
  replace (squared_distance c c) with 0
    by (unfold squared_distance; rewrite !Z.pow_2_r; ring).
  vm_compute. reflexivity.
Qed.

Lemma distance_zero_witness :
  dict_find [(7, (2, 5))] 7 = Some (2, 5)
  /\ road_row [(7, (2, 5))] (7, 7) = Ok (Build_RoadRow 7 7 0%float).
Proof.
  split; [reflexivity|].
  exact (distance_zero [(7, (2, 5))] 7 7 (2, 5) eq_refl eq_refl).
Defined.

End LoaderOutput.

Section NodeTable.

Import ParseData Format More.

(** ** The node table, row by row *)

Lemma dict_set_fresh d k v :
  Store.mem k (map fst d) = false -> dict_set d k v = d ++ [(k, v)].
Proof.
  induction d as [|[k0 v0] t IH]; simpl; intros H; [reflexivity|].
  apply orb_false_iff in H. destruct H as [H0 H1].
  rewrite Z.eqb_sym, H0. rewrite IH by exact H1. reflexivity.
Qed.

Lemma dict_set_present d k v :
  Store.mem k (map fst d) = true -> map fst (dict_set d k v) = map fst d.
Proof.
  induction d as [|[k0 v0] t IH]; simpl; intros H; [discriminate|].
  destruct (Z.eqb_spec k0 k) as [->|Hk]; [reflexivity|].
  simpl. f_equal. apply IH.
  apply orb_true_iff in H. destruct H as [H|H]; [|exact H].
  apply Z.eqb_eq in H. congruence.
Qed.

Lemma fold_set_record_keys recs : forall d,
  map fst (fold_left set_record recs d)
  = map fst d ++ first_seen (map fst recs) (map fst d).
Proof.
  induction recs as [|[k v] t IH]; intros d; simpl.
  - rewrite app_nil_r. reflexivity.
  - rewrite IH. unfold set_record. simpl.
    destruct (Store.mem k (map fst d)) eqn:E.
    + rewrite dict_set_present by exact E. reflexivity.
    + rewrite dict_set_fresh by exact E.
      rewrite map_app, <- app_assoc. reflexivity.
Qed.

Lemma first_seen_NoDup l : forall seen,
  NoDup (seen ++ l) -> first_seen l seen = l.
Proof.
  induction l as [|i t IH]; intros seen H; simpl; [reflexivity|].
  assert (E : Store.mem i seen = false).
  { destruct (Store.mem i seen) eqn:E; [|reflexivity].
    apply mem_In in E. apply NoDup_remove_2 in H.
    exfalso. apply H, in_or_app. left; exact E. }
  rewrite E. f_equal. apply IH. rewrite <- app_assoc. exact H.
Qed.

Lemma fold_set_record_fresh recs : forall d,
  NoDup (map fst d ++ map fst recs) ->
  fold_left set_record recs d = d ++ recs.
Proof.
  induction recs as [|[k v] t IH]; intros d H; simpl.
  - rewrite app_nil_r. reflexivity.
  - unfold set_record at 2. simpl.
    assert (E : Store.mem k (map fst d) = false).
    { destruct (Store.mem k (map fst d)) eqn:E; [|reflexivity].
      apply mem_In in E. simpl in H. apply NoDup_remove_2 in H.
      exfalso. apply H, in_or_app. left; exact E. }
    rewrite dict_set_fresh by exact E. rewrite IH.
    + rewrite <- app_assoc. reflexivity.
    + rewrite map_app, <- app_assoc. exact H.
Qed.

(** Whenever the node table is written, its rows come from the coordinate
    records of the input alone. *)
Lemma node_table_written content rows :
  intersections_csv (parse_data content) = Some rows ->
  exists n m recs,
    parse_header (Py.readlines content) = Ok (n, m)
    /\ collect vertex_record (coordinate_lines (Py.readlines content) n)
       = Ok recs
    /\ rows = node_rows (vertices_of recs).
Proof.
  unfold parse_data, parse_phase. cbv zeta.
  set (lines := Py.readlines content).
  destruct (parse_header lines) as [[n m]|] eqn:Eh; simpl;
    [|discriminate].
  destruct (parse_vertices lines n) as [v|] eqn:Ev; simpl; [|discriminate].
  destruct (parse_edges lines n) as [es|]; simpl; [|discriminate].
  destruct (write_roads v es []) as [rs st]. simpl.
  intros H; inversion H; subst rows. exists n, m.
  pose proof (header_nonempty _ _ _ Eh) as Hl.
  destruct (Z.lt_ge_cases n (Z.of_nat (List.length lines))) as [L|L].
  - destruct (Z.lt_ge_cases n 0) as [N|N].
    + exists []. unfold parse_vertices in Ev.
      rewrite range_nil in Ev by lia. simpl in Ev. inversion Ev; subst.
      unfold coordinate_lines. replace (Z.to_nat n) with 0%nat by lia.
      repeat split; reflexivity.
    + rewrite parse_vertices_view in Ev by lia.
      destruct (collect vertex_record _) as [recs|]; simpl in Ev;
        [|discriminate].
      inversion Ev; subst. exists recs. repeat split; reflexivity.
  - exfalso. rewrite parse_vertices_body in Ev.
    destruct (for_each_index_raises lines vertex_record set_record
                (Py.range 1 (n + 1)) [] (Z.of_nat (List.length lines)))
      as [e He]; [apply range_In; lia | lia | congruence].
Qed.

(** The rows of the node table stand in the order in which the ids first
    appear in the coordinate section; when no id is repeated, the table
    is the coordinate records themselves, row for row. *)
Theorem node_table_order (content : Py.text) (rows : list NodeRow) :
  intersections_csv (parse_data content) = Some rows ->
  exists n m recs,
    parse_header (Py.readlines content) = Ok (n, m)
    /\ collect vertex_record (coordinate_lines (Py.readlines content) n)
       = Ok recs
    /\ map id rows = first_seen (map fst recs) []
    /\ (NoDup (map fst recs) -> rows = map row_of_record recs).
Proof.
  intros H. destruct (node_table_written content rows H)
    as (n & m & recs & Eh & Ev & ->).
  exists n, m, recs. split; [exact Eh|]. split; [exact Ev|]. split.
  - rewrite node_rows_ids. unfold vertices_of.
    rewrite fold_set_record_keys. reflexivity.
  - intros Hd. unfold vertices_of.
    rewrite fold_set_record_fresh by exact Hd. reflexivity.
Qed.

Lemma node_table_order_witness :
  intersections_csv (parse_data duplicates_file)
  = Some [Build_NodeRow 1 0 4; Build_NodeRow 2 3 0]
  /\ exists n m recs,
       parse_header (Py.readlines duplicates_file) = Ok (n, m)
       /\ collect vertex_record
            (coordinate_lines (Py.readlines duplicates_file) n) = Ok recs
       /\ map id [Build_NodeRow 1 0 4; Build_NodeRow 2 3 0]
          = first_seen (map fst recs) []
       /\ (NoDup (map fst recs) ->
           [Build_NodeRow 1 0 4; Build_NodeRow 2 3 0]
           = map row_of_record recs).
Proof.
  assert (H : intersections_csv (parse_data duplicates_file)
              = Some [Build_NodeRow 1 0 4; Build_NodeRow 2 3 0])
    by (vm_compute; reflexivity).
  split; [exact H | exact (node_table_order duplicates_file _ H)].
Defined.

(** ** A negative node count *)

Lemma header_as_edge lines n m :
  parse_header lines = Ok (n, m) ->
  exists l0 rest, lines = l0 :: rest /\ edge_record l0 = Ok (Some (n, m)).
Proof.
  destruct lines as [|l0 rest]; [discriminate|]. intros H.
  exists l0, rest. split; [reflexivity|]. revert H.
  unfold parse_header, edge_record.
  rewrite (index_nth_error (l0 :: rest) 0) by lia. simpl.
  destruct (fields l0) as [|f0 [|f1 r]].
  - simpl. discriminate.
  - simpl. destruct (Py.int f0); simpl; discriminate.
  - replace (2 <=? Z.of_nat (List.length (f0 :: f1 :: r))) with true
      by (symmetry; apply Z.leb_le; simpl List.length; lia).
    rewrite (index_nth_error _ 0), (index_nth_error _ 1) by lia. simpl.
    destruct (Py.int f0); simpl; [|discriminate].
    destruct (Py.int f1); simpl; [|discriminate].
    intros H; inversion H; reflexivity.
Qed.

Lemma edges_grow (lines : list Py.text) idx : forall s s',
  for_each idx (body lines edge_record add_edge) s = Ok s' ->
  (List.length s <= List.length s')%nat
  /\ (forall l0 rest e, lines = l0 :: rest -> edge_record l0 = Ok (Some e) ->
      In 0 idx -> (List.length s < List.length s')%nat).
Proof.
  induction idx as [|i rest IH]; simpl; intros s s' H.
  - inversion H; subst. split; [lia | intros ? ? ? ? ? []].
  - destruct (body lines edge_record add_edge i s) as [s1|] eqn:E;
      simpl in H; [|discriminate].
    destruct (IH s1 s' H) as [L1 L2].
    assert (L0 : (List.length s <= List.length s1)%nat).
    { unfold body in E. destruct (Py.index lines i); simpl in E;
        [|discriminate].
      destruct (edge_record _) as [[st|]|]; simpl in E; inversion E; subst.
      - rewrite length_app. simpl. lia.
      - lia. }
    split; [lia|]. intros l0 tl e Hl He [->|Hin].
    + unfold body in E. subst lines.
      rewrite (index_nth_error (l0 :: tl) 0) in E by lia. simpl in E.
      rewrite He in E. simpl in E. inversion E; subst.
      rewrite length_app in L1. simpl in L1. lia.
    + specialize (L2 l0 tl e Hl He Hin). lia.
Qed.

Lemma negative_count_edges lines n m es :
  parse_header lines = Ok (n, m) -> n < 0 ->
  parse_edges lines n = Ok es -> es <> [].
Proof.
  intros Eh Hn Ee. rewrite parse_edges_body in Ee.
  destruct (header_as_edge lines n m Eh) as (l0 & rest & Hl & He).
  destruct (edges_grow lines _ _ _ Ee) as [_ Hg].
  assert (Hlen : (0 < List.length es)%nat).
  { eapply Nat.le_lt_trans; [|eapply (Hg l0 rest (n, m) Hl He)].
    - simpl. lia.
    - apply range_In. rewrite Hl. simpl List.length. lia. }
  destruct es; [simpl in Hlen; lia | discriminate].
Qed.

(** A header with a negative node count never loads: the coordinate loop
    does not run, the edge loop starts at or before line 0 and so reads
    the header itself as an edge, for which there are no coordinates.
    The run ends with an exception and no row is exported. *)
Theorem negative_node_count (content : Py.text) (n m : Z) :
  parse_header (Py.readlines content) = Ok (n, m) -> n < 0 ->
  let run := parse_data content in
  (exists e, outcome run = Raise e)
  /\ Store.rows_of (intersections_csv run) = []
  /\ Store.rows_of (roads_csv run) = [].
Proof.
  intros Eh Hn. unfold parse_data, parse_phase. cbv zeta.
  set (lines := Py.readlines content) in *. rewrite Eh. simpl.
  unfold parse_vertices. rewrite range_nil by lia. simpl.
  destruct (parse_edges lines n) as [es|e] eqn:Ee; simpl;
    [|repeat split; eauto].
  pose proof (negative_count_edges lines n m es Eh Hn Ee) as Hne.
  destruct es as [|[s t] es']; [congruence|].
  simpl. repeat split; eauto.
Qed.

Lemma negative_node_count_witness :
  parse_header (Py.readlines (file_of ["-1 0"; "1 0 0"]%string)) = Ok (-1, 0)
  /\ -1 < 0
  /\ (exists e,
        outcome (parse_data (file_of ["-1 0"; "1 0 0"]%string)) = Raise e)
  /\ Store.rows_of
       (intersections_csv (parse_data (file_of ["-1 0"; "1 0 0"]%string)))
     = []
  /\ Store.rows_of
       (roads_csv (parse_data (file_of ["-1 0"; "1 0 0"]%string))) = [].
Proof.
  assert (H : parse_header (Py.readlines (file_of ["-1 0"; "1 0 0"]%string))
              = Ok (-1, 0)) by (vm_compute; reflexivity).
  assert (L : -1 < 0) by lia.
  split; [exact H|]. split; [exact L|].
  exact (negative_node_count _ (-1) 0 H L).
Defined.

End NodeTable.

Section LoaderInput.

Import ParseData Format More.

(** ** What of the input the loader looks at *)

Lemma for_each_ext_in {S : Type} (f g : Z -> S -> result S) idx :
  (forall i s, In i idx -> f i s = g i s) ->
  forall s, for_each idx f s = for_each idx g s.
Proof.
  induction idx as [|i rest IH]; intros H s; simpl; [reflexivity|].
  rewrite (H i s (or_introl eq_refl)).
  destruct (g i s); simpl; [|reflexivity].
  apply IH. intros j s' Hj. apply H. right; exact Hj.
Qed.

Lemma index_same_fields lines lines' i :
  map fields lines = map fields lines' ->
  same_fields (Py.index lines i) (Py.index lines' i).
Proof.
  intros H.
  assert (Hl : List.length lines = List.length lines')
    by (rewrite <- (length_map fields lines), H; apply length_map).
  unfold Py.index. rewrite <- Hl. cbv zeta.
  destruct (_ || _); [reflexivity|].
  pose proof (f_equal (fun l => nth_error l
    (Z.to_nat (if i <? 0 then i + Z.of_nat (List.length lines) else i))) H)
    as Hn.
  simpl in Hn. rewrite !nth_error_map in Hn.
  destruct (nth_error lines _), (nth_error lines' _); simpl in *;
    try discriminate; [congruence | reflexivity].
Qed.

Lemma body_same_fields {S R : Type} (parse : Py.text -> result R)
  (upd : S -> R -> S) lines lines' :
  (forall l l', fields l = fields l' -> parse l = parse l') ->
  map fields lines = map fields lines' ->
  forall i s, body lines parse upd i s = body lines' parse upd i s.
Proof.
  intros Hp H i s. unfold body.
  pose proof (index_same_fields lines lines' i H) as Hi.
  destruct (Py.index lines i) as [l|e], (Py.index lines' i) as [l'|e'];
    simpl in *; try contradiction; [|congruence].
  rewrite (Hp l l' Hi). reflexivity.
Qed.

Lemma vertex_record_fields l l' :
  fields l = fields l' -> vertex_record l = vertex_record l'.
Proof. unfold vertex_record. intros ->. reflexivity. Qed.

Lemma edge_record_same_fields l l' :
  fields l = fields l' -> edge_record l = edge_record l'.
Proof. unfold edge_record. intros ->. reflexivity. Qed.

Lemma parse_header_fields lines lines' :
  map fields lines = map fields lines' ->
  parse_header lines = parse_header lines'.
Proof.
  intros H. unfold parse_header.
  pose proof (index_same_fields lines lines' 0 H) as Hi.
  destruct (Py.index lines 0) as [l|e], (Py.index lines' 0) as [l'|e'];
    simpl in *; try contradiction; [|congruence].
  rewrite Hi. reflexivity.
Qed.

(** The loader sees a line only through the fields that
    [strip().split()] gives: two inputs whose lines have, one by one, the
    same fields (whatever the spacing, the tabs, the indentation or the
    line terminators) give the same run. *)
Theorem spacing_ignored (content content' : Py.text) :
  map fields (Py.readlines content) = map fields (Py.readlines content') ->
  parse_data content = parse_data content'.
Proof.
  intros H. unfold parse_data, parse_phase. cbv zeta.
  rewrite (parse_header_fields _ _ H).
  destruct (parse_header (Py.readlines content')) as [[n m]|];
    simpl; [|reflexivity].
  assert (Ev : parse_vertices (Py.readlines content) n
               = parse_vertices (Py.readlines content') n).
  { rewrite !parse_vertices_body. apply for_each_ext. intros i s.
    apply body_same_fields; [apply vertex_record_fields | exact H]. }
  assert (Ee : parse_edges (Py.readlines content) n
               = parse_edges (Py.readlines content') n).
  { rewrite !parse_edges_body.
    replace (List.length (Py.readlines content))
      with (List.length (Py.readlines content'))
      by (rewrite <- (length_map fields (Py.readlines content')), <- H;
          apply length_map).
    apply for_each_ext. intros i s.
    apply body_same_fields; [apply edge_record_same_fields | exact H]. }
  rewrite Ev, Ee. reflexivity.
Qed.

Lemma spacing_ignored_witness :
  let spaced :=
    text_of "3   2" ++ [Py.LF] ++ text_of "  1 0 0  " ++ [Py.LF]
    ++ text_of "2 3 0" ++ [Py.LF] ++ text_of "3 3 4" ++ [Py.LF]
    ++ text_of "1 2" ++ [Py.LF] ++ text_of "2  3" ++ [Py.LF] in
  map fields (Py.readlines spaced) = map fields (Py.readlines scenario_A)
  /\ parse_data spaced = parse_data scenario_A.
Proof.
  intros spaced.
  assert (H : map fields (Py.readlines spaced)
              = map fields (Py.readlines scenario_A))
    by (vm_compute; reflexivity).
  split; [exact H | exact (spacing_ignored spaced scenario_A H)].
Defined.

Lemma universal_newlines_no_cr s :
  no_cr s = true -> Py.universal_newlines s = s.
Proof.
  induction s as [|c t IH]; simpl; intros H; [reflexivity|].
  apply andb_true_iff in H. destruct H as [Hc Ht].
  apply negb_true_iff in Hc. rewrite Hc, IH by exact Ht. reflexivity.
Qed.

Lemma universal_newlines_crlf s :
  no_cr s = true -> Py.universal_newlines (crlf s) = s.
Proof.
  induction s as [|c t IH]; simpl; intros H; [reflexivity|].
  apply andb_true_iff in H. destruct H as [Hc Ht].
  apply negb_true_iff in Hc.
  destruct (Ascii.eqb c Py.LF) eqn:El.
  - apply Ascii.eqb_eq in El. subst c.
    change (Py.universal_newlines (Py.CR :: Py.LF :: crlf t))
      with (Py.LF :: Py.universal_newlines (crlf t)).
    rewrite IH by exact Ht. reflexivity.
  - simpl. rewrite Hc, IH by exact Ht. reflexivity.
Qed.

(** A file with carriage return, line feed at the end of its lines loads
    as the same file with line feeds. *)
Theorem crlf_ignored (content : Py.text) :
  no_cr content = true ->
  Py.readlines (crlf content) = Py.readlines content
  /\ parse_data (crlf content) = parse_data content.
Proof.
  intros H.
  assert (E : Py.readlines (crlf content) = Py.readlines content).
  { unfold Py.readlines.
    rewrite universal_newlines_crlf, universal_newlines_no_cr by exact H.
    reflexivity. }
  split; [exact E|].
  unfold parse_data, parse_phase. rewrite E. reflexivity.
Qed.

Lemma crlf_ignored_witness :
  no_cr scenario_A = true
  /\ Py.readlines (crlf scenario_A) = Py.readlines scenario_A
  /\ parse_data (crlf scenario_A) = parse_data scenario_A.
Proof.
  assert (H : no_cr scenario_A = true) by (vm_compute; reflexivity).
  split; [exact H | exact (crlf_ignored scenario_A H)].
Defined.

Lemma index_tail (l0 l0' : Py.text) rest i :
  1 <= i -> Py.index (l0 :: rest) i = Py.index (l0' :: rest) i.
Proof.
  intros H. rewrite !index_nth_error by lia.
  replace (Z.to_nat i) with (S (Z.to_nat (i - 1))) by lia. reflexivity.
Qed.

(** The edge count of the header has no part in the result: two inputs
    that differ in their first line only, with the same node count (not
    negative), give the same run. *)
Theorem edge_count_ignored (content content' : Py.text)
  (l0 l0' : Py.text) (rest : list Py.text) (n m m' : Z) :
  Py.readlines content = l0 :: rest ->
  Py.readlines content' = l0' :: rest ->
  parse_header (l0 :: rest) = Ok (n, m) ->
  parse_header (l0' :: rest) = Ok (n, m') ->
  0 <= n ->
  parse_data content = parse_data content'.
Proof.
  intros E E' Eh Eh' Hn. unfold parse_data, parse_phase. cbv zeta.
  rewrite E, E', Eh, Eh'. simpl.
  assert (Ev : parse_vertices (l0 :: rest) n = parse_vertices (l0' :: rest) n).
  { rewrite !parse_vertices_body. apply for_each_ext_in. intros i s Hi.
    apply range_In in Hi. unfold body.
    rewrite (index_tail l0 l0' rest i) by lia. reflexivity. }
  assert (Ee : parse_edges (l0 :: rest) n = parse_edges (l0' :: rest) n).
  { rewrite !parse_edges_body. simpl List.length.
    apply for_each_ext_in. intros i s Hi.
    apply range_In in Hi. unfold body.
    rewrite (index_tail l0 l0' rest i) by lia. reflexivity. }
  rewrite Ev, Ee. reflexivity.
Qed.

Lemma edge_count_ignored_witness :
  let rest := [text_of "1 0 0" ++ [Py.LF]; text_of "2 3 4" ++ [Py.LF];
               text_of "1 2" ++ [Py.LF]] in
  let c := file_of ["2 1"; "1 0 0"; "2 3 4"; "1 2"; ""]%string in
  let c' := file_of ["2 77"; "1 0 0"; "2 3 4"; "1 2"; ""]%string in
  Py.readlines c = (text_of "2 1" ++ [Py.LF]) :: rest
  /\ Py.readlines c' = (text_of "2 77" ++ [Py.LF]) :: rest
  /\ parse_data c = parse_data c'.
Proof.
  intros rest c c'.
  assert (E : Py.readlines c = (text_of "2 1" ++ [Py.LF]) :: rest)
    by (vm_compute; reflexivity).
  assert (E' : Py.readlines c' = (text_of "2 77" ++ [Py.LF]) :: rest)
    by (vm_compute; reflexivity).
  split; [exact E|]. split; [exact E'|].
  apply (edge_count_ignored c c' _ _ rest 2 1 77 E E');
    [vm_compute; reflexivity | vm_compute; reflexivity | lia].
Defined.

End LoaderInput.

Section ShortLines.

Import ParseData Format More.

Lemma collect_app {R : Type} (parse : Py.text -> result R) a b :
  collect parse (a ++ b)
  = (ra <- collect parse a ;; rb <- collect parse b ;; Ok (ra ++ rb)).
Proof.
  induction a as [|l t IH]; simpl.
  - destruct (collect parse b); reflexivity.
  - destruct (parse l); simpl; [|reflexivity]. rewrite IH.
    destruct (collect parse t); simpl; [|reflexivity].
    destruct (collect parse b); reflexivity.
Qed.

Lemma edge_record_short line :
  two_fields line = false -> edge_record line = Ok None.
Proof.
  unfold two_fields, edge_record. intros H.
  apply Nat.leb_gt in H.
  destruct (Z.leb_spec 2 (Z.of_nat (List.length (fields line))));
    [lia | reflexivity].
Qed.

Lemma flatten_app a b : flatten (a ++ b) = flatten a ++ flatten b.
Proof. unfold flatten. apply flat_map_app. Qed.

Lemma index_prefix (pre a b : list Py.text) i :
  0 <= i < Z.of_nat (List.length pre) ->
  Py.index (pre ++ a) i = Py.index (pre ++ b) i.
Proof.
  intros H. rewrite !index_nth_error by lia.
  rewrite !nth_error_app1 by lia. reflexivity.
Qed.

Lemma parse_header_prefix l0 a b :
  parse_header (l0 :: a) = parse_header (l0 :: b).
Proof.
  unfold parse_header.
  rewrite (index_nth_error (l0 :: a) 0), (index_nth_error (l0 :: b) 0) by lia.
  reflexivity.
Qed.

(** A line of the edge section with fewer than two fields, a blank line
    for one, changes nothing: the run on the input with the line is the
    run on the input without it. *)
Theorem short_edge_lines_skipped (content content' : Py.text)
  (pre post : list Py.text) (short : Py.text) (n m : Z) :
  Py.readlines content = pre ++ post ->
  Py.readlines content' = pre ++ short :: post ->
  parse_header (pre ++ post) = Ok (n, m) ->
  0 <= n -> n + 1 <= Z.of_nat (List.length pre) ->
  two_fields short = false ->
  parse_data content' = parse_data content.
Proof.
  intros E E' Eh Hn Hp Hs. unfold parse_data, parse_phase. cbv zeta.
  rewrite E, E'.
  destruct pre as [|l0 pre']; [simpl in Hp; lia|].
  assert (Eh' : parse_header ((l0 :: pre') ++ short :: post) = Ok (n, m))
    by (rewrite <- Eh; apply parse_header_prefix).
  rewrite Eh, Eh'. cbn [bind].
  assert (Ev : parse_vertices ((l0 :: pre') ++ short :: post) n
               = parse_vertices ((l0 :: pre') ++ post) n).
  { rewrite !parse_vertices_body. apply for_each_ext_in. intros i s Hi.
    apply range_In in Hi. unfold body.
    rewrite (index_prefix (l0 :: pre') (short :: post) post i) by lia.
    reflexivity. }
  assert (Ee : parse_edges ((l0 :: pre') ++ short :: post) n
               = parse_edges ((l0 :: pre') ++ post) n).
  { rewrite !parse_edges_view by exact Hn. unfold edge_lines.
    rewrite !skipn_app.
    replace (Z.to_nat (n + 1) - List.length (l0 :: pre'))%nat with 0%nat
      by lia.
    simpl skipn at 2 4. rewrite !collect_app. simpl collect at 2.
    rewrite (edge_record_short short Hs). simpl bind at 3.
    destruct (collect edge_record (skipn _ (l0 :: pre'))) as [ra|];
      simpl; [|reflexivity].
    destruct (collect edge_record post) as [rb|]; simpl; [|reflexivity].
    rewrite !edges_of_flatten, !flatten_app. reflexivity. }
  rewrite Ev, Ee. reflexivity.
Qed.

Lemma short_edge_lines_skipped_witness :
  let pre := [text_of "2 2" ++ [Py.LF]; text_of "1 0 0" ++ [Py.LF];
              text_of "2 3 4" ++ [Py.LF]; text_of "1 2" ++ [Py.LF]] in
  let post := [text_of "2 1" ++ [Py.LF]] in
  let c := file_of ["2 2"; "1 0 0"; "2 3 4"; "1 2"; "2 1"; ""]%string in
  let c' := file_of ["2 2"; "1 0 0"; "2 3 4"; "1 2"; ""; "2 1"; ""]%string in
  Py.readlines c = pre ++ post
  /\ Py.readlines c' = pre ++ [Py.LF] :: post
  /\ parse_data c' = parse_data c.
Proof.
  intros pre post c c'.
  assert (E : Py.readlines c = pre ++ post) by (vm_compute; reflexivity).
  assert (E' : Py.readlines c' = pre ++ [Py.LF] :: post)
    by (vm_compute; reflexivity).
  split; [exact E|]. split; [exact E'|].
  apply (short_edge_lines_skipped c c' pre post [Py.LF] 2 2 E E');
    [vm_compute; reflexivity | lia | simpl; lia | vm_compute; reflexivity].
Defined.

End ShortLines.

Section Frames.

Import Store Cypher Props More Dashboard.

(** ** The frames of the dashboard *)

Section Groups.

Context {A : Type}.
Variable eqb : A -> A -> bool.
Hypothesis eqb_eq : forall a b, eqb a b = true <-> a = b.

Lemma fold_bump_keys keys : forall acc a,
  In a (map fst (fold_left (fun acc k => bump eqb k acc) keys acc))
  <-> In a keys \/ In a (map fst acc).
Proof.
  induction keys as [|k t IH]; intros acc a; simpl.
  - intuition.
  - rewrite IH, (bump_keys eqb eqb_eq). intuition congruence.
Qed.

(** The keys of a grouped result are the keys of its rows. *)
Lemma group_count_keys keys a :
  In a (map fst (group_count eqb keys)) <-> In a keys.
Proof.
  unfold group_count. rewrite fold_bump_keys. simpl. intuition.
Qed.

Lemma lookup_perm_gen (G1 G2 : list (A * nat)) k :
  NoDup (map fst G1) -> positive G1 -> Permutation G1 G2 ->
  lookup eqb G1 k = lookup eqb G2 k.
Proof.
  intros D1 P1 Hp.
  assert (D2 : NoDup (map fst G2))
    by (eapply Permutation_NoDup; [apply Permutation_map; exact Hp | exact D1]).
  assert (P2 : positive G2)
    by (unfold positive; eapply Permutation_Forall; eassumption).
  pose proof (lookup_In eqb eqb_eq G1 D1 P1 k) as I1.
  pose proof (lookup_In eqb eqb_eq G2 D2 P2 k) as I2.
  destruct (Nat.eq_dec (lookup eqb G1 k) 0) as [E1|E1].
  - destruct (Nat.eq_dec (lookup eqb G2 k) 0) as [E2|E2]; [congruence|].
    assert (H : In (k, lookup eqb G2 k) G2) by (apply I2; split; lia).
    apply (Permutation_in _ (Permutation_sym Hp)) in H.
    apply I1 in H. lia.
  - assert (H : In (k, lookup eqb G1 k) G1) by (apply I1; split; lia).
    apply (Permutation_in _ Hp) in H. apply I2 in H. lia.
Qed.

Lemma count_desc_strong (l : list (A * nat)) :
  Sorted (fun a b => (snd b <=? snd a)%nat = true) l ->
  StronglySorted (fun a b => (snd b <= snd a)%nat) l.
Proof.
  intros H. apply Sorted_StronglySorted.
  - intros a b c; lia.
  - induction H as [|a t Ht IH Ha]; constructor; [exact IH|].
    destruct Ha; constructor. apply Nat.leb_le; assumption.
Qed.

End Groups.

Lemma category_labels d : In (category d) labels.
Proof.
  unfold labels. do 5 (destruct d as [|d]; [simpl; tauto|]). simpl. tauto.
Qed.

Lemma categories_rows_sorted g :
  StronglySorted (fun a b => (snd b <= snd a)%nat) (categories_query g).
Proof.
  apply count_desc_strong.
  apply (order_by_sorted by_count_desc by_count_desc_total).
Qed.

(** The rows of [categories_query]: at most five, one per label in use,
    each label with the number of nodes whose degree the [CASE] sends to
    it, no count zero, the counts in descending order and summing to the
    number of nodes. *)
Theorem categories_rows (g : Graph) :
  let df := categories_query g in
  NoDup (map fst df)
  /\ incl (map fst df) labels
  /\ (List.length df <= 5)%nat
  /\ StronglySorted (fun a b => (snd b <= snd a)%nat) df
  /\ Forall (fun r => (0 < snd r)%nat) df
  /\ (forall l, lookup String.eqb df l
                = count_if (fun i => String.eqb (category (degree g i)) l)
                    (nodes g))
  /\ list_sum (map snd df) = count_intersections g.
Proof.
  cbv zeta.
  pose proof (order_by_answer by_count_desc by_count_desc_total
                (category_groups g)) as [Hp Hs].
  fold (categories_query g) in Hp, Hs.
  destruct (group_count_spec String.eqb String.eqb_eq
              (map (fun r => category (snd r)) (with_degree g)))
    as (GD & GP & GL & GS).
  fold (category_groups g) in GD, GP, GL, GS.
  assert (D : NoDup (map fst (categories_query g)))
    by (eapply Permutation_NoDup; [apply Permutation_map; exact Hp | exact GD]).
  assert (I : incl (map fst (categories_query g)) labels).
  { intros l Hl.
    apply (Permutation_in l (Permutation_sym (Permutation_map fst Hp))) in Hl.
    apply (proj1 (group_count_keys String.eqb String.eqb_eq _ l)) in Hl.
    apply in_map_iff in Hl. destruct Hl as (r & <- & _).
    exact (category_labels (snd r)). }
  split; [exact D|]. split; [exact I|]. split.
  { pose proof (NoDup_incl_length D I) as L.
    rewrite length_map in L. exact L. }
  split; [apply count_desc_strong; exact Hs|]. split.
  { unfold positive in GP. eapply Permutation_Forall; eassumption. }
  split.
  - intros l.
    rewrite <- (lookup_perm_gen String.eqb String.eqb_eq _ _ l GD GP Hp), GL.
    unfold occurrences, with_degree, count_if. rewrite !map_map. simpl.
    induction (nodes g) as [|i t IH]; simpl; [reflexivity|].
    destruct (String.eqb (category (degree g i)) l); simpl; congruence.
  - apply categories_total.
Qed.

Lemma series_max_ge l x : In x l -> (x <= series_max l)%nat.
Proof.
  induction l as [|c t IH]; simpl; intros H; [destruct H|].
  destruct H as [->|H]; [lia | specialize (IH H); lia].
Qed.

Lemma series_max_In l : l <> [] -> In (series_max l) l.
Proof.
  induction l as [|c t IH]; intros H; [congruence|]. simpl.
  destruct t as [|c' t'].
  - left. simpl. lia.
  - destruct (Nat.max_spec c (series_max (c' :: t'))) as [[_ E]|[_ E]];
      rewrite E; [right; apply IH; discriminate | left; reflexivity].
Qed.

Lemma series_max_head c t :
  Forall (fun x => (x <= c)%nat) t -> series_max (c :: t) = c.
Proof.
  intros H. simpl.
  assert (L : (series_max t <= c)%nat).
  { induction H as [|x t' Hx _ IH]; simpl; lia. }
  lia.
Qed.

Lemma frames_not_empty g :
  nodes g <> [] -> degree_query g <> [] /\ categories_query g <> [].
Proof.
  intros H.
  assert (N : (0 < count_intersections g)%nat).
  { unfold count_intersections. destruct (nodes g); [congruence|].
    simpl. lia. }
  split; intros E.
  - pose proof (order_by_perm by_degree_asc (degree_groups g)) as Hp.
    fold (degree_query g) in Hp. rewrite E in Hp.
    apply Permutation_sym, Permutation_nil in Hp.
    destruct (group_count_spec Nat.eqb nat_eqb_eq (map snd (with_degree g)))
      as (_ & _ & _ & GS).
    fold (degree_groups g) in GS. rewrite Hp in GS. simpl in GS.
    unfold with_degree, count_intersections in *. rewrite !length_map in GS.
    lia.
  - pose proof (categories_total g) as T. rewrite E in T. simpl in T. lia.
Qed.

(** The exceptions of the dashboard: [ZeroDivisionError] exactly when the
    graph has no node, [OverflowError] when the quotient of the average
    degree is beyond the floats, and no other; with a node and a quotient
    in range every frame has a row and the summary is computed from the
    three queries. *)
Theorem dashboard_outcomes (g : Graph) :
  match dashboard g with
  | Ok s =>
      nodes g <> []
      /\ 2 * Z.of_nat (count_roads g)
         < Py.float_overflow_bound * Z.of_nat (count_intersections g)
      /\ degree_df s = degree_query g
      /\ top10_df s = top10_query g
      /\ categories_df s = categories_query g
      /\ max_degree s = series_max (map fst (degree_query g))
  | Raise e =>
      (e = ZeroDivisionError /\ nodes g = [])
      \/ (e = OverflowError /\ nodes g <> []
          /\ Py.float_overflow_bound * Z.of_nat (count_intersections g)
             <= 2 * Z.of_nat (count_roads g))
  end.
Proof.
  unfold dashboard. cbv zeta. unfold Py.truediv.
  destruct (nodes g) as [|i0 t0] eqn:En.
  - unfold count_intersections. rewrite En. simpl. left. split; reflexivity.
  - assert (Hne : nodes g <> []) by (rewrite En; discriminate).
    destruct (frames_not_empty g Hne) as [Hd Hc].
    assert (Hz : (Z.of_nat (count_intersections g) =? 0) = false).
    { apply Z.eqb_neq. unfold count_intersections. rewrite En.
      simpl List.length. lia. }
    rewrite Hz.
    rewrite !Z.abs_eq by lia.
    destruct (Z.leb_spec
                (Py.float_overflow_bound * Z.of_nat (count_intersections g))
                (2 * Z.of_nat (count_roads g))) as [L|L].
    + cbn [bind]. right. repeat split; [discriminate | exact L].
    + cbn [bind]. unfold column.
      destruct (categories_query g) as [|c0 ct] eqn:Ec; [congruence|].
      destruct (degree_query g) as [|d0 dt] eqn:Ed; [congruence|].
      cbn [bind]. repeat split; [discriminate | exact L].
Qed.

Lemma dashboard_ok g s :
  dashboard g = Ok s ->
  nodes g <> []
  /\ degree_df s = degree_query g
  /\ top10_df s = top10_query g
  /\ categories_df s = categories_query g
  /\ max_degree s = series_max (map fst (degree_query g))
  /\ most_common_type s
     = nth (idxmax (map snd (categories_query g)))
         (map fst (categories_query g)) EmptyString.
Proof.
  unfold dashboard. cbv zeta.
  destruct (Py.truediv _ _) as [q|] eqn:Eq; cbn [bind]; [|discriminate].
  assert (Hne : nodes g <> []).
  { intros En. unfold Py.truediv, count_intersections in Eq.
    rewrite En in Eq. simpl in Eq. discriminate. }
  unfold column.
  destruct (categories_query g) as [|c0 ct] eqn:Ec; cbn [bind];
    [discriminate|].
  destruct (degree_query g) as [|d0 dt] eqn:Ed; cbn [bind]; [discriminate|].
  intros H; inversion H; subst; clear H. simpl.
  repeat split; exact Hne.
Qed.

Lemma idxmax_head c t :
  Forall (fun x => (x <= c)%nat) t -> idxmax (c :: t) = 0%nat.
Proof.
  intros H. unfold idxmax. rewrite (series_max_head c t H). simpl.
  rewrite Nat.eqb_refl. reflexivity.
Qed.

(** The dominant category of the summary is the label of the first row
    of the category frame, and no row has a greater count. *)
Theorem dominant_category_first (g : Graph) (s : Summary) :
  dashboard g = Ok s ->
  exists c rest,
    categories_df s = (most_common_type s, c) :: rest
    /\ Forall (fun r => (snd r <= c)%nat) (categories_df s).
Proof.
  intros H. destruct (dashboard_ok g s H) as (Hne & _ & _ & Ec & _ & Em).
  destruct (frames_not_empty g Hne) as [_ Hc].
  pose proof (categories_rows_sorted g) as Hs.
  rewrite Ec, Em.
  destruct (categories_query g) as [|[l c] rest]; [congruence|].
  inversion Hs as [|? ? _ F]; subst.
  assert (F' : Forall (fun x => (x <= c)%nat) (map snd rest))
    by (apply Forall_map; exact F).
  exists c, rest. simpl map. rewrite (idxmax_head c _ F'). simpl.
  split; [reflexivity|]. constructor; [simpl; lia | exact F].
Qed.

Lemma dominant_category_first_witness :
  let g := {| nodes := [1; 2; 3]; rels := [(1, 2); (2, 3)] |} in
  exists s, dashboard g = Ok s
    /\ exists c rest,
         categories_df s = (most_common_type s, c) :: rest
         /\ Forall (fun r => (snd r <= c)%nat) (categories_df s).
Proof.
  intros g.
  destruct (dashboard g) as [s|] eqn:E; [|vm_compute in E; discriminate].
  exists s. split; [reflexivity|].
  exact (dominant_category_first g s E).
Defined.

(** The maximum of the summary is the greatest degree of a node, and it
    is the degree of the first row of the Top-10 frame. *)
Theorem max_degree_is_top (g : Graph) (s : Summary) :
  dashboard g = Ok s ->
  (forall i, In i (nodes g) -> (degree g i <= max_degree s)%nat)
  /\ (exists i, In i (nodes g) /\ degree g i = max_degree s)
  /\ (exists i rest, top10_df s = (i, max_degree s) :: rest).
Proof.
  intros H. destruct (dashboard_ok g s H) as (Hne & _ & Et & _ & Em & _).
  destruct (frames_not_empty g Hne) as [Hd _].
  assert (K : forall d, In d (map fst (degree_query g))
                        <-> exists i, In i (nodes g) /\ degree g i = d).
  { intros d.
    pose proof (order_by_perm by_degree_asc (degree_groups g)) as Hp.
    fold (degree_query g) in Hp. split.
    - intros Hin.
      apply (Permutation_in d (Permutation_sym (Permutation_map fst Hp)))
        in Hin.
      apply (proj1 (group_count_keys Nat.eqb nat_eqb_eq _ d)) in Hin.
      unfold with_degree in Hin. rewrite map_map in Hin.
      apply in_map_iff in Hin. destruct Hin as (i & E & Hi).
      exists i. split; [exact Hi | exact E].
    - intros (i & Hi & E).
      apply (Permutation_in d (Permutation_map fst Hp)).
      apply (proj2 (group_count_keys Nat.eqb nat_eqb_eq _ d)).
      unfold with_degree. rewrite map_map. apply in_map_iff.
      exists i. split; [exact E | exact Hi]. }
  assert (Hmax : forall i, In i (nodes g) -> (degree g i <= max_degree s)%nat).
  { intros i Hi. rewrite Em. apply series_max_ge. apply K.
    exists i. split; [exact Hi | reflexivity]. }
  assert (Hex : exists i, In i (nodes g) /\ degree g i = max_degree s).
  { apply K. rewrite Em. apply series_max_In.
    destruct (degree_query g); [congruence | discriminate]. }
  split; [exact Hmax|]. split; [exact Hex|].
  rewrite Et. unfold top10_query, limit.
  destruct (order_by_answer by_degree_desc by_degree_desc_total
              (with_degree g)) as [Hp Hs].
  apply desc_strong in Hs.
  destruct (order_by by_degree_desc (with_degree g)) as [|[i d] rest] eqn:Eo.
  { apply Permutation_sym, Permutation_nil in Hp. unfold with_degree in Hp.
    apply map_eq_nil in Hp. congruence. }
  exists i, (firstn 9 rest). simpl. f_equal. f_equal.
  assert (Hin : In (i, d) (with_degree g))
    by (apply (Permutation_in _ (Permutation_sym Hp)); left; reflexivity).
  unfold with_degree in Hin. apply in_map_iff in Hin.
  destruct Hin as (j & E & Hj). inversion E; subst.
  destruct Hex as (k & Hk & Ek).
  assert (Hkd : In (k, degree g k) ((i, degree g i) :: rest)).
  { apply (Permutation_in _ Hp). unfold with_degree. apply in_map_iff.
    exists k. split; [reflexivity | exact Hk]. }
  inversion Hs as [|? ? _ F]; subst. rewrite Forall_forall in F.
  specialize (Hmax i Hj).
  destruct Hkd as [E'|Hin']; [inversion E'; subst; lia|].
  specialize (F _ Hin'). simpl in F. lia.
Qed.

Lemma max_degree_is_top_witness :
  let g := {| nodes := [1; 2; 3]; rels := [(1, 2); (2, 3)] |} in
  exists s, dashboard g = Ok s
    /\ (forall i, In i (nodes g) -> (degree g i <= max_degree s)%nat)
    /\ (exists i, In i (nodes g) /\ degree g i = max_degree s)
    /\ (exists i rest, top10_df s = (i, max_degree s) :: rest).
Proof.
  intros g.
  destruct (dashboard g) as [s|] eqn:E; [|vm_compute in E; discriminate].
  exists s. split; [reflexivity|].
  exact (max_degree_is_top g s E).
Defined.

Lemma bump_weighted k acc :
  weighted_sum (bump Nat.eqb k acc) = (k + weighted_sum acc)%nat.
Proof.
  unfold weighted_sum.
  induction acc as [|[k' c] t IH]; simpl; [lia|].
  destruct (Nat.eqb_spec k' k) as [->|Hk]; simpl; [lia|].
  rewrite IH. lia.
Qed.

Lemma group_count_weighted keys :
  weighted_sum (group_count Nat.eqb keys) = list_sum keys.
Proof.
  unfold group_count.
  assert (G : forall acc,
             weighted_sum (fold_left (fun acc k => bump Nat.eqb k acc) keys acc)
             = (weighted_sum acc + list_sum keys)%nat).
  { induction keys as [|k t IH]; intros acc; simpl; [lia|].
    rewrite IH, bump_weighted. lia. }
  rewrite G. reflexivity.
Qed.

(** The histogram carries the degree sum: the sum of degree times count
    over its rows is the sum of the degrees of the nodes, which on a
    loaded graph is twice the number of roads less the number of roads
    from a node to itself. *)
Theorem histogram_degree_sum (g : Graph) :
  weighted_sum (degree_query g) = degree_sum g
  /\ (loaded g = true ->
      (weighted_sum (degree_query g) + self_loops g
       = 2 * count_roads g)%nat).
Proof.
  assert (E : weighted_sum (degree_query g) = degree_sum g).
  { pose proof (order_by_perm by_degree_asc (degree_groups g)) as Hp.
    fold (degree_query g) in Hp. unfold weighted_sum.
    rewrite <- (list_sum_perm _ _
                  (Permutation_map (fun r => (fst r * snd r)%nat) Hp)).
    apply group_count_weighted. }
  split; [exact E|]. intros H. rewrite E. apply handshake. exact H.
Qed.

Lemma histogram_degree_sum_witness :
  let g := {| nodes := [1; 2; 3]; rels := [(1, 2); (2, 3)] |} in
  loaded g = true
  /\ weighted_sum (degree_query g) = degree_sum g
  /\ (loaded g = true ->
      (weighted_sum (degree_query g) + self_loops g
       = 2 * count_roads g)%nat).
Proof.
  intros g. split; [reflexivity | exact (histogram_degree_sum g)].
Defined.

End Frames.

Section Undirected.

Import Store Cypher Props More Dashboard.

(** ** Direction and isolated nodes *)

Lemma degree_same_roads rs : forall rs' i,
  Forall2 same_road rs rs' ->
  List.length (filter (incident i) rs') = List.length (filter (incident i) rs).
Proof.
  induction rs as [|r t IH]; intros rs' i H; inversion H as [|? r' ? t' Hr Ht];
    subst; [reflexivity|].
  simpl. assert (E : incident i r' = incident i r).
  { destruct Hr as [->| ->]; [reflexivity|].
    unfold incident. simpl. apply orb_comm. }
  rewrite E.
  destruct (incident i r); simpl; rewrite (IH t' i Ht); reflexivity.
Qed.

Lemma with_degree_same_roads g g' :
  nodes g' = nodes g -> Forall2 same_road (rels g) (rels g') ->
  with_degree g' = with_degree g.
Proof.
  intros Hn Hr. unfold with_degree. rewrite Hn. apply map_ext.
  intros i. unfold degree. rewrite (degree_same_roads _ _ i Hr). reflexivity.
Qed.

(** The dashboard does not see the direction of a road: turning any of
    the roads of a graph round leaves the degrees, the three frames and
    the whole summary as they are. *)
Theorem direction_ignored (g g' : Graph) :
  nodes g' = nodes g ->
  Forall2 same_road (rels g) (rels g') ->
  with_degree g' = with_degree g
  /\ degree_query g' = degree_query g
  /\ top10_query g' = top10_query g
  /\ categories_query g' = categories_query g
  /\ dashboard g' = dashboard g.
Proof.
  intros Hn Hr.
  pose proof (with_degree_same_roads g g' Hn Hr) as Hw.
  assert (Hd : degree_query g' = degree_query g)
    by (unfold degree_query, degree_groups; rewrite Hw; reflexivity).
  assert (Ht : top10_query g' = top10_query g)
    by (unfold top10_query; rewrite Hw; reflexivity).
  assert (Hc : categories_query g' = categories_query g)
    by (unfold categories_query, category_groups; rewrite Hw; reflexivity).
  repeat split; try assumption.
  unfold dashboard. cbv zeta. rewrite Hd, Ht, Hc.
  unfold count_intersections, count_roads.
  rewrite Hn, <- (Forall2_length Hr). reflexivity.
Qed.

Lemma direction_ignored_witness :
  let g := {| nodes := [1; 2; 3]; rels := [(1, 2); (2, 3)] |} in
  let g' := {| nodes := [1; 2; 3]; rels := [(1, 2); (3, 2)] |} in
  nodes g' = nodes g
  /\ Forall2 same_road (rels g) (rels g')
  /\ with_degree g' = with_degree g
  /\ degree_query g' = degree_query g
  /\ top10_query g' = top10_query g
  /\ categories_query g' = categories_query g
  /\ dashboard g' = dashboard g.
Proof.
  intros g g'.
  assert (Hn : nodes g' = nodes g) by reflexivity.
  assert (Hr : Forall2 same_road (rels g) (rels g')).
  { constructor; [left; reflexivity|].
    constructor; [right; reflexivity | constructor]. }
  split; [exact Hn|]. split; [exact Hr|].
  exact (direction_ignored g g' Hn Hr).
Defined.

Section Constant.

Context {A : Type}.
Variable eqb : A -> A -> bool.
Hypothesis eqb_refl : forall a, eqb a a = true.

Lemma fold_bump_constant (a : A) k : forall c,
  fold_left (fun acc x => bump eqb x acc) (repeat a k) [(a, c)]
  = [(a, (c + k)%nat)].
Proof.
  induction k as [|k IH]; intros c; simpl.
  - rewrite Nat.add_0_r. reflexivity.
  - rewrite eqb_refl, IH. f_equal. f_equal. lia.
Qed.

Lemma group_count_constant (a : A) k :
  group_count eqb (repeat a (S k)) = [(a, S k)].
Proof.
  unfold group_count. simpl. rewrite fold_bump_constant. reflexivity.
Qed.

End Constant.

Lemma map_constant {A B : Type} (f : A -> B) (b : B) l :
  (forall a, In a l -> f a = b) -> map f l = repeat b (List.length l).
Proof.
  induction l as [|a t IH]; intros H; simpl; [reflexivity|].
  rewrite (H a (or_introl eq_refl)), IH; [reflexivity|].
  intros a' Ha'. apply H. right; exact Ha'.
Qed.

(** On a graph with nodes and no road the dashboard does not fail: the
    average and the maximum are 0, the histogram has the single row of
    degree 0, and all the nodes are counted, and named the dominant type,
    under the label of the [ELSE] branch. *)
Theorem edgeless_graph (g : Graph) :
  rels g = [] -> nodes g <> [] ->
  exists s,
    dashboard g = Ok s
    /\ avg_degree s = 0%float
    /\ max_degree s = 0%nat
    /\ degree_df s = [(0%nat, count_intersections g)]
    /\ categories_df s
       = [("Major Hub (5+ roads)"%string, count_intersections g)]
    /\ most_common_type s = "Major Hub (5+ roads)"%string.
Proof.
  intros Hr Hn.
  assert (Hw : map snd (with_degree g)
               = repeat 0%nat (List.length (nodes g))).
  { unfold with_degree. rewrite map_map. simpl.
    rewrite <- (length_map (fun i => i) (nodes g)) at 1.
    rewrite map_id.
    apply map_constant. intros i _. unfold degree. rewrite Hr. reflexivity. }
  assert (Hcq : map (fun r => category (snd r)) (with_degree g)
                = repeat "Major Hub (5+ roads)"%string (List.length (nodes g))).
  { rewrite <- (map_map snd category), Hw, map_repeat. reflexivity. }
  destruct (nodes g) as [|i0 t0] eqn:En; [congruence|].
  assert (Hd : degree_query g = [(0%nat, S (List.length t0))]).
  { unfold degree_query, degree_groups. rewrite Hw. simpl List.length.
    rewrite (group_count_constant Nat.eqb Nat.eqb_refl). reflexivity. }
  assert (Hc : categories_query g
               = [("Major Hub (5+ roads)"%string, S (List.length t0))]).
  { unfold categories_query, category_groups. rewrite Hcq. simpl List.length.
    rewrite (group_count_constant String.eqb String.eqb_refl). reflexivity. }
  unfold dashboard. cbv zeta. rewrite Hd, Hc.
  unfold count_intersections, count_roads. rewrite Hr, En.
  unfold Py.truediv.
  assert (Hz : (Z.of_nat (List.length (i0 :: t0)) =? 0) = false)
    by (apply Z.eqb_neq; simpl List.length; lia).
  rewrite Hz.
  assert (Ho : (Py.float_overflow_bound
                * Z.abs (Z.of_nat (List.length (i0 :: t0)))
                <=? Z.abs (2 * Z.of_nat (@List.length (Z * Z) []))) = false).
  { apply Z.leb_gt. simpl List.length at 2. rewrite Z.abs_eq by lia.
    assert (0 < Py.float_overflow_bound) by (apply Z.ltb_lt; vm_compute; reflexivity).
    simpl List.length. nia. }
  rewrite Ho. cbn [bind column].
  eexists. split; [reflexivity|].
  cbn [avg_degree max_degree degree_df categories_df most_common_type map
       fst snd].
  rewrite (idxmax_head (S (List.length t0)) [] (Forall_nil _)).
  split; [vm_compute; reflexivity|]. repeat split.
Qed.

Lemma edgeless_graph_witness :
  let g := {| nodes := [4; 9]; rels := [] |} in
  rels g = [] /\ nodes g <> []
  /\ exists s,
       dashboard g = Ok s
       /\ avg_degree s = 0%float
       /\ max_degree s = 0%nat
       /\ degree_df s = [(0%nat, count_intersections g)]
       /\ categories_df s
          = [("Major Hub (5+ roads)"%string, count_intersections g)]
       /\ most_common_type s = "Major Hub (5+ roads)"%string.
Proof.
  intros g.
  assert (Hr : rels g = []) by reflexivity.
  assert (Hn : nodes g <> []) by discriminate.
  split; [exact Hr|]. split; [exact Hn|].
  exact (edgeless_graph g Hr Hn).
Defined.

End Undirected.

Section Success.

Import ParseData Format More.

(** ** What a run without exception says of its input *)

Lemma write_roads_all_ok v edges : forall written rows,
  write_roads v edges written = (rows, Ok tt) ->
  exists rows',
    rows = written ++ rows'
    /\ Forall2 (fun e r => road_row v e = Ok r) edges rows'.
Proof.
  induction edges as [|e rest IH]; simpl; intros written rows H.
  - inversion H; subst. exists []. rewrite app_nil_r.
    split; [reflexivity | constructor].
  - destruct (road_row v e) as [r|] eqn:E; [|discriminate].
    destruct (IH _ _ H) as (rows' & -> & HF).
    exists (r :: rows'). rewrite <- app_assoc. split; [reflexivity|].
    constructor; assumption.
Qed.

Lemma known_flatten ids es :
  (forall s t, In (s, t) (flatten es) -> In s ids /\ In t ids) ->
  forallb (known ids) es = true.
Proof.
  induction es as [|[[s t]|] rest IH]; simpl; intros H; [reflexivity| |].
  - rewrite andb_true_iff. split.
    + destruct (H s t (or_introl eq_refl)) as [Hs Ht].
      apply andb_true_iff. split; apply mem_In; assumption.
    + apply IH. intros s' t' Hin. apply H. right; exact Hin.
  - apply IH. exact H.
Qed.

(** A run that ends without exception had an input in the format: a node
    count that is not negative and is followed by as many lines, every
    coordinate record and every edge line of two fields or more made of
    integers, and every edge between ids that have coordinates. The
    tables are then the ones those records give. *)
Theorem successful_run (content : Py.text) :
  outcome (parse_data content) = Ok tt ->
  exists n m recs es rows,
    parse_header (Py.readlines content) = Ok (n, m)
    /\ 0 <= n < Z.of_nat (List.length (Py.readlines content))
    /\ collect vertex_record (coordinate_lines (Py.readlines content) n)
       = Ok recs
    /\ collect edge_record (edge_lines (Py.readlines content) n) = Ok es
    /\ forallb (known (map fst recs)) es = true
    /\ map endpoints rows = flatten es
    /\ parse_data content
       = {| intersections_csv := Some (node_rows (vertices_of recs));
            roads_csv := Some rows;
            outcome := Ok tt |}.
Proof.
  unfold parse_data, parse_phase. cbv zeta.
  set (lines := Py.readlines content).
  destruct (parse_header lines) as [[n m]|] eqn:Eh; cbn [bind];
    [|discriminate].
  destruct (parse_vertices lines n) as [v|] eqn:Ev; cbn [bind];
    [|discriminate].
  destruct (parse_edges lines n) as [edges|] eqn:Ee; cbn [bind];
    [|discriminate].
  destruct (write_roads v edges []) as [rows st] eqn:Ew. simpl.
  intros Hst. subst st.
  destruct (write_roads_all_ok v edges [] rows Ew) as (rows' & -> & HF).
  simpl app in *.
  pose proof (header_nonempty _ _ _ Eh) as Hl.
  assert (Hn0 : 0 <= n).
  { destruct (Z.lt_ge_cases n 0) as [N|N]; [|lia]. exfalso.
    pose proof (negative_count_edges lines n m edges Eh N Ee) as Hne.
    unfold parse_vertices in Ev. rewrite range_nil in Ev by lia.
    simpl in Ev. inversion Ev; subst v.
    destruct edges as [|[s t] tl]; [congruence|].
    inversion HF as [|? r ? ? Hr _]; subst. discriminate. }
  assert (Hn1 : n < Z.of_nat (List.length lines)).
  { destruct (Z.lt_ge_cases n (Z.of_nat (List.length lines))) as [L|L];
      [exact L|]. exfalso. rewrite parse_vertices_body in Ev.
    destruct (for_each_index_raises lines vertex_record set_record
                (Py.range 1 (n + 1)) [] (Z.of_nat (List.length lines)))
      as [e He]; [apply range_In; lia | lia | congruence]. }
  rewrite parse_vertices_view in Ev by lia.
  destruct (collect vertex_record _) as [recs|] eqn:Ec; simpl in Ev;
    [|discriminate].
  inversion Ev; subst v.
  rewrite parse_edges_view in Ee by lia.
  destruct (collect edge_record _) as [es|] eqn:Ece; simpl in Ee;
    [|discriminate].
  inversion Ee; subst edges.
  destruct (vertices_of_spec recs) as (_ & Hk & _).
  assert (Hm : map endpoints rows' = flatten es).
  { rewrite <- edges_of_flatten. clear - HF.
    induction HF as [|e r es' rs Hr _ IH]; simpl; [reflexivity|].
    destruct (road_row_endpoints _ _ _ Hr) as [E _]. congruence. }
  exists n, m, recs, es, rows'.
  split; [reflexivity|]. split; [lia|]. split; [exact Ec|].
  split; [exact Ece|]. split; [|split; [exact Hm | reflexivity]].
  apply known_flatten. intros s t Hin. rewrite <- edges_of_flatten in Hin.
  clear - HF Hin Hk.
  induction HF as [|e r es' rs Hr _ IH]; [destruct Hin|].
  destruct Hin as [->|Hin]; [|apply IH; exact Hin].
  destruct (road_row_endpoints _ _ _ Hr) as (_ & Hs & Ht). simpl in Hs, Ht.
  split; apply Hk; assumption.
Qed.

Lemma successful_run_witness :
  outcome (parse_data scenario_A) = Ok tt
  /\ exists n m recs es rows,
       parse_header (Py.readlines scenario_A) = Ok (n, m)
       /\ 0 <= n < Z.of_nat (List.length (Py.readlines scenario_A))
       /\ collect vertex_record
            (coordinate_lines (Py.readlines scenario_A) n) = Ok recs
       /\ collect edge_record (edge_lines (Py.readlines scenario_A) n)
          = Ok es
       /\ forallb (known (map fst recs)) es = true
       /\ map endpoints rows = flatten es
       /\ parse_data scenario_A
          = {| intersections_csv := Some (node_rows (vertices_of recs));
               roads_csv := Some rows;
               outcome := Ok tt |}.
Proof.
  assert (H : outcome (parse_data scenario_A) = Ok tt)
    by (vm_compute; reflexivity).
  split; [exact H | exact (successful_run scenario_A H)].
Defined.

End Success.
